(** * Health-to-Earn (Strava) cloud functions: a shallow embedding

    The Firebase cloud functions of the plugin (authorize, link, unlink,
    webhook, status, subscribe, unsubscribe and the scheduled payout) are
    embedded as functions in a small state-and-exception monad over the
    Firestore collections [users] and [rewards]. Each definition follows the
    handler of the same name, statement by statement.

    Modelling conventions:
    - values read from requests, HTTP responses and documents are JSON values
      ([jsval]); JavaScript's [undefined] is the [None] of [option jsval];
    - numbers are integers ([Z]), printed digit by digit as JavaScript prints
      the integers below 10^21; larger and fractional numbers are outside the
      model;
    - a promise that rejects and a statement that throws are both [Throw];
      [p.then(f).catch(g)] and [try { .. } catch { .. }] are [catch];
    - the outside world of one invocation (clock readings, the answer of the
      HTTP call) is the record [Env]; whether the next Firestore call fails is
      read from the fault schedule carried by the [World];
    - every call to a collaborator (Firestore, HTTP) is appended to the
      [calls] log of the world, also when it fails;
    - [request.query] is an object, and so is the [request.body] of a
      [Request]; ['k' in data] looks at their own keys. A body that is not
      an object (a text body) is a [RawBody], handled by [webhook_raw];
    - a document id is the key of its collection as it stands. The check
      that the Firestore client makes on a document path is not modelled:
      the statements that a document is found or written are meant for ids
      that pass it ([valid_document_id]), which the printed integer ids and
      YYYYMMDD days of the data model do;
    - [functions.logger] calls have no effect on responses or stores and are
      left out. *)

From Stdlib Require Import ZArith List Bool Lia.
From stdpp Require Import base option strings pretty list gmap.

Local Open Scope Z_scope.
Local Open Scope string_scope.

(** ** JSON values as JavaScript sees them *)

#[warnings="-register-all"] Inductive jsval : Type :=
  | JNull
  | JBool (b : bool)
  | JNum (n : Z)
  | JStr (s : string)
  | JArr (xs : list jsval)
  | JObj (fields : list (string * jsval)).

(** [String(v)], as used by template literals and by ['' + v]. *)
Fixpoint js_to_string (v : jsval) : string :=
  match v with
  | JNull => "null"
  | JBool true => "true"
  | JBool false => "false"
  | JNum n => pretty n
  | JStr s => s
  | JArr xs =>
      (fix join (l : list jsval) : string :=
         match l with
         | [] => ""
         | x :: r =>
             let e := match x with JNull => "" | _ => js_to_string x end in
             match r with [] => e | _ :: _ => e +:+ "," +:+ join r end
         end) xs
  | JObj _ => "[object Object]"
  end.

(** A template-literal hole [${v}] where [v] may be [undefined]. *)
Definition template (v : option jsval) : string :=
  match v with
  | None => "undefined"
  | Some x => js_to_string x
  end.

(** JavaScript truthiness. *)
Definition truthy (v : option jsval) : bool :=
  match v with
  | None | Some JNull => false
  | Some (JBool b) => b
  | Some (JNum n) => negb (n =? 0)%Z
  | Some (JStr s) => negb (String.eqb s "")
  | Some (JArr _) | Some (JObj _) => true
  end.

(** [v === s] for a string [s]. *)
Definition strict_eq_str (v : option jsval) (s : string) : bool :=
  match v with
  | Some (JStr t) => String.eqb t s
  | _ => false
  end.

(** Own property [k] of an object literal. *)
Definition own_property (fs : list (string * jsval)) (k : string) : option jsval :=
  snd <$> List.find (fun kv => String.eqb (fst kv) k) fs.

(** Equality of stored values, as Firestore's ['=='] filter compares them:
    arrays element by element, maps field by field whatever the order. *)
Fixpoint jsval_eqb (a b : jsval) : bool :=
  match a, b with
  | JNull, JNull => true
  | JBool x, JBool y => Bool.eqb x y
  | JNum x, JNum y => (x =? y)%Z
  | JStr x, JStr y => String.eqb x y
  | JArr xs, JArr ys =>
      (fix go (l1 l2 : list jsval) : bool :=
         match l1, l2 with
         | [] , [] => true
         | x :: l1', y :: l2' => jsval_eqb x y && go l1' l2'
         | _, _ => false
         end) xs ys
  | JObj fs, JObj gs =>
      (length fs =? length gs)%nat
      && (fix all (l : list (string * jsval)) : bool :=
            match l with
            | [] => true
            | (k, x) :: l' =>
                match own_property gs k with
                | Some y => jsval_eqb x y
                | None => false
                end && all l'
            end) fs
  | _, _ => false
  end.

(** The value of a field after a merge-write: a non-empty map is merged into
    a stored map field by field, any other value replaces the stored one. *)
Fixpoint merge_value (new old : jsval) : jsval :=
  match new, old with
  | JObj fs, JObj gs =>
      match fs with
      | [] => new
      | _ :: _ =>
          JObj
            ((fix go (l : list (string * jsval)) : list (string * jsval) :=
                match l with
                | [] => []
                | (k, v) :: l' =>
                    (k, match own_property gs k with
                        | Some o => merge_value v o
                        | None => v
                        end) :: go l'
                end) fs
             ++ List.filter
                  (fun kv => negb (existsb (String.eqb (fst kv)) (List.map fst fs)))
                  gs)
      end
  | _, _ => new
  end.

(** A plain object: request query, request body, Firestore document. *)
Abbreviation obj := (gmap string jsval).

(** ['k' in data] *)
Definition has_key (k : string) (data : obj) : bool :=
  match data !! k with
  | Some _ => true
  | None => false
  end.

(** ** Requests and responses *)

Record Request : Type := mkRequest {
  method : string;
  query : obj;
  body : obj
}.

Inductive Body : Type :=
  | StatusMessage                               (* response.sendStatus(code) *)
  | Text (s : string)                           (* response.send(s) *)
  | JsonObject (o : list (string * option jsval)) (* response.json({..}) *)
  | JsonValue (v : option jsval)                (* response.json(res.data) *)
  | Location (url : string).                    (* response.redirect(code, url) *)

Record Response : Type := mkResponse {
  statusCode : Z;
  payload : Body
}.

(** ** Configuration and environment *)

(** [functions.config().strava] *)
Record Config : Type := mkConfig {
  client_id : string;
  client_secret : string;
  oauth_url : string;
  webhook_url : string;
  verify_token : string
}.

(** What the outside world answers during one invocation. *)
Record Env : Type := mkEnv {
  formattedDate : string;    (* moment(new Date()).format('YYYYMMDD') *)
  activityAt : string;       (* moment(..).format('YYYY-MM-DD HH:mm:ss Z') *)
  nowMillis : Z;             (* new Date().valueOf() *)
  http : option (option jsval) (* axios.post: None rejects, Some d is res.data *)
}.

(** ** The Firestore database and the collaborator log *)

Inductive Collection : Type := Users | Rewards.

Inductive Call : Type :=
  | DocGet (c : Collection) (id : string)
  | DocSet (c : Collection) (id : string)
  | QueryGet (c : Collection) (field : string)
  | HttpPost (url : string).

Record World : Type := mkWorld {
  users : gmap string obj;
  rewards : gmap string obj;
  faults : list bool;       (* true: the next Firestore call fails *)
  calls : list Call
}.

Definition collection (c : Collection) (w : World) : gmap string obj :=
  match c with
  | Users => users w
  | Rewards => rewards w
  end.

Definition set_collection (c : Collection) (m : gmap string obj) (w : World) : World :=
  match c with
  | Users => mkWorld m (rewards w) (faults w) (calls w)
  | Rewards => mkWorld (users w) m (faults w) (calls w)
  end.

(** What [get()] resolves to: a DocumentSnapshot for a document reference, a
    QuerySnapshot for a query. *)
Inductive Snapshot : Type :=
  | DocumentSnapshot (d : option obj)
  | QuerySnapshot (docs : list (string * obj)).

(** [snapshot.exists]: a property of DocumentSnapshot only. *)
Definition snap_exists (s : Snapshot) : option jsval :=
  match s with
  | DocumentSnapshot d => Some (JBool (bool_decide (is_Some d)))
  | QuerySnapshot _ => None
  end.

(** [snapshot.empty]: a property of QuerySnapshot only. *)
Definition snap_empty (s : Snapshot) : option jsval :=
  match s with
  | DocumentSnapshot _ => None
  | QuerySnapshot docs => Some (JBool (bool_decide (docs = [])))
  end.

(** ** The monad of handlers *)

Inductive result (A : Type) : Type :=
  | Ret (a : A)
  | Throw (reason : string).
Arguments Ret {A} a.
Arguments Throw {A} reason.

Definition M (A : Type) : Type := World -> result A * World.

Definition ret {A} (a : A) : M A := fun w => (Ret a, w).

Definition throw {A} (reason : string) : M A := fun w => (Throw reason, w).

Definition bind {A B} (m : M A) (k : A -> M B) : M B :=
  fun w =>
    match m w with
    | (Ret a, w') => k a w'
    | (Throw e, w') => (Throw e, w')
    end.

Definition catch {A} (m : M A) (h : string -> M A) : M A :=
  fun w =>
    match m w with
    | (Ret a, w') => (Ret a, w')
    | (Throw e, w') => h e w'
    end.

Notation "'do!' x <- m ; k" := (bind m (fun x => k))
  (at level 10, x name, m at level 100, k at level 200).

(** A collaborator is called: the call is logged. *)
Definition log_call (c : Call) : M unit :=
  fun w => (Ret tt, mkWorld (users w) (rewards w) (faults w) (calls w ++ [c])).

(** The next entry of the fault schedule; an exhausted schedule never fails. *)
Definition next_fault : M bool :=
  fun w =>
    match faults w with
    | [] => (Ret false, w)
    | b :: fs => (Ret b, mkWorld (users w) (rewards w) fs (calls w))
    end.

Definition firestore_call (c : Call) : M unit :=
  do! _ <- log_call c;
  do! failed <- next_fault;
  if failed : bool then throw "firestore: call failed" else ret tt.

(** [DATABASE.doc(`c/${id}`).get()] and [DATABASE.collection(c).doc(id).get()] *)
Definition doc_get (c : Collection) (id : string) : M Snapshot :=
  do! _ <- firestore_call (DocGet c id);
  fun w => (Ret (DocumentSnapshot (collection c w !! id)), w).

(** [snapshot.data()]: the fields of an existing document. Reading a field of
    the [undefined] that a missing document gives, or calling [data] on a
    snapshot that has no such method, is a TypeError. *)
Definition snap_data (s : Snapshot) : M obj :=
  match s with
  | DocumentSnapshot (Some d) => ret d
  | DocumentSnapshot None => throw "TypeError: cannot read properties of undefined"
  | QuerySnapshot _ => throw "TypeError: data is not a function"
  end.

(** The argument of [set]: Firestore refuses [undefined] field values before
    anything is sent. *)
Fixpoint document_of (fields : list (string * option jsval)) : option obj :=
  match fields with
  | [] => Some ∅
  | (k, Some v) :: r => d ← document_of r; Some (<[k := v]> d)
  | (_, None) :: _ => None
  end.

Definition validate_document (fields : list (string * option jsval)) : M obj :=
  match document_of fields with
  | Some d => ret d
  | None => throw "firestore: cannot use undefined as a Firestore value"
  end.

(** The document after [set(d, { merge: true })]: the fields of [d] are
    merged into the stored ones, the other stored fields stay. *)
Definition merge_document (d old : obj) : obj :=
  union_with (fun new stored => Some (merge_value new stored)) d old.

(** The write of [set(d, { merge: true })], which creates the document when
    there is none. A failed write leaves the collection as it was. *)
Definition commit_merge (c : Collection) (id : string) (d : obj) : M unit :=
  do! _ <- firestore_call (DocSet c id);
  fun w =>
    let old := default ∅ (collection c w !! id) in
    (Ret tt, set_collection c (<[id := merge_document d old]> (collection c w)) w).

(** [DATABASE.collection(c).doc(id).set({..}, { merge: true })] *)
Definition doc_set_merge (c : Collection) (id : string)
    (fields : list (string * option jsval)) : M unit :=
  do! d <- validate_document fields;
  commit_merge c id d.

(** [DATABASE.collection(c).where(field, '==', v)]: building the query calls
    no collaborator; an [undefined] operand is refused. *)
Record Query : Type := mkQuery {
  q_collection : Collection;
  q_field : string;
  q_value : jsval
}.

Definition where_eq (c : Collection) (field : string) (v : option jsval) : M Query :=
  match v with
  | Some x => ret (mkQuery c field x)
  | None => throw "firestore: cannot use undefined as a Firestore value"
  end.

Definition matches (q : Query) (d : obj) : bool :=
  match d !! q_field q with
  | Some x => jsval_eqb x (q_value q)
  | None => false
  end.

(** [query.get()] *)
Definition query_get (q : Query) : M Snapshot :=
  do! _ <- firestore_call (QueryGet (q_collection q) (q_field q));
  fun w =>
    (Ret (QuerySnapshot
            (filter (fun kd => matches q kd.2 = true)
                    (map_to_list (collection (q_collection q) w)))), w).

(** [axios.post(url, payload)]: resolves to a response whose [data] the
    environment supplies, or rejects. *)
Definition axios_post (e : Env) (url : string) (payload : list (string * string))
    : M (option jsval) :=
  do! _ <- log_call (HttpPost url);
  match http e with
  | Some data => ret data
  | None => throw "axios: request failed"
  end.

(** Property read [o.k] on a value that may be [undefined] or [null]. Only
    own properties of objects are modelled (the handlers read [athlete],
    [id], [access_token], [refresh_token] and [expires_at]). *)
Definition member (o : option jsval) (k : string) : M (option jsval) :=
  match o with
  | None | Some JNull => throw "TypeError: cannot read properties of undefined"
  | Some (JObj fs) => ret (own_property fs k)
  | Some _ => ret None
  end.

Definition sendStatus (code : Z) : M Response := ret (mkResponse code StatusMessage).

Definition send (code : Z) (s : string) : M Response := ret (mkResponse code (Text s)).

(** ** The cloud functions *)

Section CloudFunctions.

(** [Address.createFromRawAddress] of the dHealth SDK: [true] when the
    string parses as an address, [false] when the call throws. *)
Variable createFromRawAddress : string -> bool.

(** JavaScript's [encodeURIComponent]. *)
Variable encodeURIComponent : string -> string.

Variable stravaConf : Config.

(** [try { Address.createFromRawAddress(v) } catch (e) { .. }]: the parser
    works on strings; for any other value its first step, [v.trim()],
    throws. *)
Definition address_parses (v : option jsval) : bool :=
  match v with
  | Some (JStr s) => createFromRawAddress s
  | _ => false
  end.

Definition authorize (request : Request) : M Response :=
  let data := query request in
  if negb (has_key "dhealth.address" data) then sendStatus 400
  else if negb (address_parses (data !! "dhealth.address")) then sendStatus 400
  else
    let stravaQuery :=
      "?"
      +:+ "client_id=" +:+ client_id stravaConf
      +:+ "&response_type=code"
      +:+ "&approval_prompt=auto"
      +:+ "&scope=activity:read"
      +:+ "&redirect_uri=" +:+ encodeURIComponent (oauth_url stravaConf)
      +:+ "&state=" +:+ template (data !! "dhealth.address") in
    ret (mkResponse 301
           (Location ("https://www.strava.com/oauth/authorize" +:+ stravaQuery))).

(** The fields written for a linked user. *)
Definition link_fields (e : Env) (address athlete_id access_token refresh_token
    expires_at : option jsval) : list (string * option jsval) :=
  [ ("address", address);
    ("athleteId", athlete_id);
    ("accessToken", access_token);
    ("refreshToken", refresh_token);
    ("accessExpiresAt", expires_at);
    ("linkedAt", Some (JNum (nowMillis e))) ].

Definition link (e : Env) (request : Request) : M Response :=
  let data := query request in
  if has_key "error" data && strict_eq_str (data !! "error") "access_denied"
  then sendStatus 403
  else if negb (has_key "code" data) || negb (has_key "scope" data)
          || negb (has_key "state" data)
  then sendStatus 400
  else
    let dhpAddress := data !! "state" in
    if negb (address_parses dhpAddress) then sendStatus 400
    else
      let stravaCode := data !! "code" in
      catch
        (do! res_data <- axios_post e "https://www.strava.com/oauth/token"
               [ ("client_id", client_id stravaConf);
                 ("client_secret", client_secret stravaConf);
                 ("code", template stravaCode);
                 ("grant_type", "authorization_code") ];
         do! athlete <- member res_data "athlete";
         let address := dhpAddress in
         do! athlete_id <- member athlete "id";
         do! access_token <- member res_data "access_token";
         do! refresh_token <- member res_data "refresh_token";
         do! expires_at <- member res_data "expires_at";
         do! d <- validate_document
                    (link_fields e address athlete_id access_token
                       refresh_token expires_at);
         catch
           (do! _ <- commit_merge Users (template athlete_id) d;
            sendStatus 200)
           (fun reason => sendStatus 500))
        (fun reason => sendStatus 400).

Definition unlink (request : Request) : M Response := sendStatus 501.

Definition webhookSubscriptionHandler (request : Request) : M Response :=
  let data := query request in
  if negb (has_key "hub.mode" data) || negb (has_key "hub.verify_token" data)
  then sendStatus 400
  else
    let verify_token := verify_token stravaConf in
    if negb (strict_eq_str (data !! "hub.mode") "subscribe")
       || negb (strict_eq_str (data !! "hub.verify_token") verify_token)
    then sendStatus 401
    else
      ret (mkResponse 200
             (JsonObject [("hub.challenge", data !! "hub.challenge")])).

(** The fields of a new rewards entry. *)
Definition reward_fields (e : Env) (address athleteId activityId : option jsval)
    : list (string * option jsval) :=
  [ ("address", address);
    ("athleteId", athleteId);
    ("activityId", activityId);
    ("isProcessed", Some (JBool false));
    ("isConfirmed", Some (JBool false));
    ("rewardDay", Some (JStr (formattedDate e)));
    ("activityAt", Some (JStr (activityAt e))) ].

(** [`${formattedDate}-${athleteId}`] *)
Definition rewardsId (formattedDate : string) (athleteId : option jsval) : string :=
  formattedDate +:+ "-" +:+ template athleteId.

(** The body of the [try] block of [webhookEventHandler]. *)
Definition webhookEventTry (e : Env) (data : obj) : M Response :=
  do! user <- doc_get Users (template (data !! "owner_id"));
  if negb (truthy (snap_exists user)) then send 200 "EVENT_IGNORED"
  else
    do! user_data <- snap_data user;
    let address := user_data !! "address" in
    let athleteId := user_data !! "athleteId" in
    let activityId := data !! "object_id" in
    let rewardsId := rewardsId (formattedDate e) athleteId in
    do! reward <- doc_get Rewards rewardsId;
    if truthy (snap_exists reward) then send 200 "EVENT_IGNORED"
    else
      do! _ <- doc_set_merge Rewards rewardsId
                 (reward_fields e address athleteId activityId);
      send 200 "EVENT_RECEIVED".

Definition webhookEventHandler (e : Env) (request : Request) : M Response :=
  let data := body request in
  if negb (has_key "object_type" data) || negb (has_key "object_id" data)
     || negb (has_key "aspect_type" data) || negb (has_key "owner_id" data)
  then sendStatus 400
  else if negb (strict_eq_str (data !! "object_type") "activity")
          || negb (strict_eq_str (data !! "aspect_type") "create")
  then send 200 "EVENT_IGNORED"
  else
    catch (webhookEventTry e data)
          (fun reason => send 200 "EVENT_IGNORED").

Definition webhook (e : Env) (request : Request) : M Response :=
  if String.eqb (method request) "GET" then webhookSubscriptionHandler request
  else if String.eqb (method request) "POST" then webhookEventHandler e request
  else sendStatus 403.

Definition status (request : Request) : M Response :=
  if negb (String.eqb (method request) "GET") then sendStatus 403
  else
    let data := query request in
    if negb (has_key "dhealth.address" data) then sendStatus 400
    else if negb (address_parses (data !! "dhealth.address")) then sendStatus 400
    else
      do! users_query <- where_eq Users "address" (data !! "dhealth.address");
      catch
        (do! user <- query_get users_query;
         if truthy (snap_exists user) then sendStatus 200
         else sendStatus 404)
        (fun reason => sendStatus 500).

Definition subscribe (e : Env) (request : Request) : M Response :=
  catch
    (do! res_data <- axios_post e "https://www.strava.com/api/v3/push_subscriptions"
           [ ("client_id", client_id stravaConf);
             ("client_secret", client_secret stravaConf);
             ("callback_url", webhook_url stravaConf);
             ("verify_token", verify_token stravaConf) ];
     ret (mkResponse 200 (JsonValue res_data)))
    (fun reason => sendStatus 400).

Definition unsubscribe (request : Request) : M Response := sendStatus 501.

(** The scheduled job; it returns [null] on both paths. *)
Definition payout : M unit :=
  do! unprocessed <- where_eq Rewards "isProcessed" (Some (JBool false));
  do! snapshot <- query_get unprocessed;
  if truthy (snap_empty snapshot) then ret tt
  else ret tt.

End CloudFunctions.

(** ** Invocations *)

Inductive CloudFunction : Type :=
  | Authorize | Link | Unlink | Webhook | Status | Subscribe | Unsubscribe
  | Payout.

Record Invocation : Type := mkInvocation {
  target : CloudFunction;
  environment : Env;
  request_of : Request
}.

Section Runs.

Variable createFromRawAddress : string -> bool.
Variable encodeURIComponent : string -> string.
Variable stravaConf : Config.

(** One invocation of a deployed function; the scheduled job answers
    nothing. *)
Definition invoke (i : Invocation) : M (option Response) :=
  let e := environment i in
  let request := request_of i in
  match target i with
  | Authorize =>
      do! r <- authorize createFromRawAddress encodeURIComponent stravaConf request;
      ret (Some r)
  | Link => do! r <- link createFromRawAddress stravaConf e request; ret (Some r)
  | Unlink => do! r <- unlink request; ret (Some r)
  | Webhook => do! r <- webhook stravaConf e request; ret (Some r)
  | Status => do! r <- status createFromRawAddress request; ret (Some r)
  | Subscribe => do! r <- subscribe stravaConf e request; ret (Some r)
  | Unsubscribe => do! r <- unsubscribe request; ret (Some r)
  | Payout => do! _ <- payout; ret None
  end.

(** Invocations handled one after the other; a failed invocation does not
    stop the next one. *)
Fixpoint run (invocations : list Invocation) (w : World) : World :=
  match invocations with
  | [] => w
  | i :: rest => run rest (invoke i w).2
  end.

(** Webhook deliveries handled one after the other, with their answers. *)
Fixpoint deliver (events : list (Env * Request)) (w : World)
    : list (result Response) * World :=
  match events with
  | [] => ([], w)
  | (e, request) :: rest =>
      let '(r, w1) := webhook stravaConf e request w in
      let '(rs, w2) := deliver rest w1 in
      (r :: rs, w2)
  end.

End Runs.

(** ** Request bodies that are not objects *)

(** [request.body] as the hosting layer hands it to a function: the object
    that a JSON or form body parses to, or the string of a text body. *)
Inductive RawBody : Type :=
  | ObjectBody (data : obj)
  | TextBody (text : string).

(** The webhook on such a request. Only the event handler reads the body,
    and its first test, ['object_type' in data], stands before its [try]:
    on a string the [in] operator throws a TypeError, which nothing
    catches. *)
Definition webhook_raw (stravaConf : Config) (e : Env) (method : string)
    (query : obj) (data : RawBody) : M Response :=
  match data with
  | ObjectBody o => webhook stravaConf e (mkRequest method query o)
  | TextBody _ =>
      if String.eqb method "GET"
      then webhookSubscriptionHandler stravaConf (mkRequest method query ∅)
      else if String.eqb method "POST"
      then throw "TypeError: cannot use 'in' operator to search for 'object_type'"
      else sendStatus 403
  end.

(** ** Vocabulary of the statements *)

(** A string that the Firestore client takes, as it stands, for the id of a
    document of a collection: not empty and without ['/'] (with a ['/'] the
    string is a path of several segments, and the client throws when it
    names no document). *)
Definition no_slash (s : string) : bool :=
  forallb (fun c => negb (Ascii.nat_of_ascii c =? 47)%nat)   (* 47 is '/' *)
    (String.list_ascii_of_string s).

Definition valid_document_id (id : string) : bool :=
  negb (String.eqb id "") && no_slash id.

(** The value of a field after a merge-write of [written] over what the
    document held [before]. *)
Definition stored_value (written : jsval) (before : option jsval) : jsval :=
  match before with
  | Some old => merge_value written old
  | None => written
  end.

(** A value that is not a map: a merge-write stores it as it is. *)
Definition plain_value (v : jsval) : Prop :=
  forall fields : list (string * jsval), v <> JObj fields.

(** Field [k] of [record] holds [v] as a merge-write over [old] leaves it:
    [v] itself, unless [v] is a map and is merged into a stored map. *)
Definition holds_written (record old : obj) (k : string) (v : jsval) : Prop :=
  record !! k = Some (stored_value v (old !! k))
  /\ (plain_value v -> record !! k = Some v).

(** The event has the four obligatory fields. *)
Definition passes_shape_check (data : obj) : Prop :=
  is_Some (data !! "object_type") /\ is_Some (data !! "object_id")
  /\ is_Some (data !! "aspect_type") /\ is_Some (data !! "owner_id").

(** Number of document writes among the logged collaborator calls. *)
Definition is_write (c : Call) : bool :=
  match c with
  | DocSet _ _ => true
  | _ => false
  end.

Definition writes (l : list Call) : nat := length (List.filter is_write l).

(** [isProcessed] of the rewards entry [id], when there is one. *)
Definition isProcessed (w : World) (id : string) : option jsval :=
  rewards w !! id ≫= (fun d => d !! "isProcessed").

(** A day string as the format ['YYYYMMDD'] prints it: eight digits. *)
Definition is_digit (c : Ascii.ascii) : bool :=
  (48 <=? Ascii.nat_of_ascii c)%nat && (Ascii.nat_of_ascii c <=? 57)%nat.

Definition is_YYYYMMDD (s : string) : bool :=
  (String.length s =? 8)%nat && forallb is_digit (String.list_ascii_of_string s).

(** The schedule left after a step is a suffix of the schedule before. *)
Definition schedule_suffix (w w' : World) : Prop :=
  exists n : nat, faults w' = drop n (faults w).

(** No Firestore call of the schedule fails. *)
Definition reliable (w : World) : Prop :=
  Forall (fun b => b = false) (faults w).

(** The ways the [try] block of the event handler can end: the event is
    ignored, an exception leaves the block before any write is sent, the
    write is sent and fails, or a rewards entry is created. *)
Inductive try_outcome (e : Env) (data : obj) (w : World)
    : result Response -> World -> Prop :=
  | try_ignored (w' : World) :
      users w' = users w -> rewards w' = rewards w ->
      writes (calls w') = writes (calls w) -> schedule_suffix w w' ->
      try_outcome e data w (Ret (mkResponse 200 (Text "EVENT_IGNORED"))) w'
  | try_thrown (reason : string) (w' : World) :
      users w' = users w -> rewards w' = rewards w ->
      writes (calls w') = writes (calls w) -> schedule_suffix w w' ->
      try_outcome e data w (Throw reason) w'
  | try_write_failed (reason : string) (u : obj) (w' : World) :
      users w !! template (data !! "owner_id") = Some u ->
      rewards w !! rewardsId (formattedDate e) (u !! "athleteId") = None ->
      users w' = users w -> rewards w' = rewards w ->
      writes (calls w') = S (writes (calls w)) -> schedule_suffix w w' ->
      try_outcome e data w (Throw reason) w'
  | try_received (u d : obj) (w' : World) :
      users w !! template (data !! "owner_id") = Some u ->
      rewards w !! rewardsId (formattedDate e) (u !! "athleteId") = None ->
      document_of (reward_fields e (u !! "address") (u !! "athleteId")
                     (data !! "object_id")) = Some d ->
      users w' = users w ->
      rewards w' =
        <[rewardsId (formattedDate e) (u !! "athleteId") := d]> (rewards w) ->
      writes (calls w') = S (writes (calls w)) -> schedule_suffix w w' ->
      try_outcome e data w (Ret (mkResponse 200 (Text "EVENT_RECEIVED"))) w'.

(** An activity-creation event of athlete [owner], delivered on day [day]. *)
Definition activity_created_on (day : string) (owner : jsval)
    (delivery : Env * Request) : Prop :=
  method delivery.2 = "POST"
  /\ formattedDate delivery.1 = day
  /\ body delivery.2 !! "object_type" = Some (JStr "activity")
  /\ body delivery.2 !! "aspect_type" = Some (JStr "create")
  /\ is_Some (body delivery.2 !! "object_id")
  /\ body delivery.2 !! "owner_id" = Some owner.

(** ** Sample data *)

(** A stand-in for the SDK's address parser: 39 characters. *)
Definition sample_parser (s : string) : bool := (String.length s =? 39)%nat.

Definition sample_address : string := "NCZMZ4DQGQKYFABCDEFGHIJKLMNOPQRSTUVWXYZ".

Definition sample_conf : Config :=
  mkConfig "12345" "s3cr3t" "https://example.org/link"
    "https://example.org/webhook" "verify-me".

Definition sample_token_response : jsval :=
  JObj [ ("athlete", JObj [("id", JNum 42)]);
         ("access_token", JStr "t");
         ("refresh_token", JStr "r");
         ("expires_at", JNum 123) ].

Definition sample_env : Env :=
  mkEnv "20211103" "2021-11-03 10:15:00 +00:00" 1635934500000
    (Some (Some sample_token_response)).

Definition sample_user : obj :=
  {[ "address" := JStr sample_address; "athleteId" := JNum 42;
     "accessToken" := JStr "t"; "refreshToken" := JStr "r";
     "accessExpiresAt" := JNum 123; "linkedAt" := JNum 1635934500000 ]}.

Definition sample_reward : obj :=
  {[ "address" := JStr sample_address; "athleteId" := JNum 42;
     "activityId" := JNum 1001; "isProcessed" := JBool false;
     "isConfirmed" := JBool false; "rewardDay" := JStr "20211103";
     "activityAt" := JStr "2021-11-03 10:15:00 +00:00" ]}.

Definition empty_world : World := mkWorld ∅ ∅ [] [].

(** Athlete 42 is linked. *)
Definition linked_world : World := mkWorld {[ "42" := sample_user ]} ∅ [] [].

(** Athlete 42 was linked before, to another address and with other tokens,
    and the record has a field that the link callback does not write. *)
Definition earlier_user : obj :=
  {[ "address" := JStr "NDEARLIERADDRESSABCDEFGHIJKLMNOPQRSTUVW"; "athleteId" := JNum 42;
     "accessToken" := JStr "t0"; "refreshToken" := JStr "r0";
     "accessExpiresAt" := JNum 100; "linkedAt" := JNum 1600000000000;
     "nickname" := JStr "ada" ]}.

Definition earlier_linked_world : World :=
  mkWorld {[ "42" := earlier_user ]} ∅ [] [].

(** Athlete 42 is linked and has an unprocessed entry for 2021-11-03. *)
Definition rewarded_world : World :=
  mkWorld {[ "42" := sample_user ]} {[ "20211103-42" := sample_reward ]} [] [].

(** Athlete 42 is linked; the third Firestore call from now on fails. *)
Definition failing_write_world : World :=
  mkWorld {[ "42" := sample_user ]} ∅ [false; false; true] [].

Definition sweep : Invocation := mkInvocation Payout sample_env (mkRequest "" ∅ ∅).

Definition activity_event (activity : Z) : Request :=
  mkRequest "POST" ∅
    {[ "object_type" := JStr "activity"; "object_id" := JNum activity;
       "aspect_type" := JStr "create"; "owner_id" := JNum 42 ]}.

Definition status_request : Request :=
  mkRequest "GET" {[ "dhealth.address" := JStr sample_address ]} ∅.

Definition link_request : Request :=
  mkRequest "GET"
    {[ "code" := JStr "abc"; "scope" := JStr "activity:read";
       "state" := JStr sample_address ]} ∅.

Definition denied_request : Request :=
  mkRequest "GET" {[ "error" := JStr "access_denied" ]} ∅.

Definition verification_request : Request :=
  mkRequest "GET"
    {[ "hub.mode" := JStr "subscribe"; "hub.verify_token" := JStr "verify-me";
       "hub.challenge" := JStr "15f7d1a91c1f40f8a748fd134752feb3" ]} ∅.

Definition verification_request_without_challenge : Request :=
  mkRequest "GET"
    {[ "hub.mode" := JStr "subscribe"; "hub.verify_token" := JStr "verify-me" ]} ∅.

(** A computation that leaves the rewards collection as it found it. *)
Definition keeps_rewards {A : Type} (m : M A) : Prop :=
  forall w : World, rewards (m w).2 = rewards w.

(** From [w] to [w'] no rewards entry was modified or removed, and every
    entry that was added has [isProcessed] false. *)
Definition entries_kept (w w' : World) : Prop :=
  forall id : string,
    match rewards w !! id with
    | Some d => rewards w' !! id = Some d
    | None =>
        rewards w' !! id = None
        \/ exists d : obj,
             rewards w' !! id = Some d /\ d !! "isProcessed" = Some (JBool false)
    end.

(** ** Vocabulary of the further properties *)

(** Every run of [m] takes the world to one related to it by [R]. *)
Definition steps (R : World -> World -> Prop) {A : Type} (m : M A) : Prop :=
  forall w : World, R w (m w).2.

(** [m] calls collaborators at most [n] times, and sends at most [k] writes. *)
Definition makes_calls (n k : nat) {A : Type} (m : M A) : Prop :=
  forall w : World,
    exists l : list Call,
      calls (m w).2 = (calls w ++ l)%list
      /\ (length l <= n)%nat /\ (writes l <= k)%nat.

(** When [m] returns a response, its status code is one of [codes]. *)
Definition returns_in (codes : list Z) (m : M Response) : Prop :=
  forall (w : World) (r : Response) (w' : World),
    m w = (Ret r, w') -> statusCode r ∈ codes.

(** [m] always returns a response, with a status code among [codes]. *)
Definition answers_in (codes : list Z) (m : M Response) : Prop :=
  forall w : World,
    exists (r : Response) (w' : World),
      m w = (Ret r, w') /\ statusCode r ∈ codes.

#[global] Instance CloudFunction_eq_dec : EqDecision CloudFunction.
Proof. solve_decision. Defined.

(** The status codes that occur in the text of each HTTP function. *)
Definition codes_of (f : CloudFunction) : list Z :=
  match f with
  | Authorize => [400; 301]
  | Link => [403; 400; 200; 500]
  | Unlink => [501]
  | Webhook => [400; 401; 200; 403]
  | Status => [403; 400; 200; 404; 500]
  | Subscribe => [200; 400]
  | Unsubscribe => [501]
  | Payout => []
  end.

(** Collaborator calls and writes that one invocation can make at most. *)
Definition call_budget (f : CloudFunction) : nat * nat :=
  match f with
  | Authorize | Unlink | Unsubscribe => (0, 0)%nat
  | Link => (2, 1)%nat
  | Webhook => (3, 1)%nat
  | Status | Subscribe | Payout => (1, 0)%nat
  end.

(** The request is an activity-creation event: the only kind for which the
    webhook goes to the store. *)
Definition is_activity_creation (request : Request) : bool :=
  String.eqb (method request) "POST"
  && has_key "object_type" (body request) && has_key "object_id" (body request)
  && has_key "aspect_type" (body request) && has_key "owner_id" (body request)
  && strict_eq_str (body request !! "object_type") "activity"
  && strict_eq_str (body request !! "aspect_type") "create".

(** The link callback goes on to the token exchange. *)
Definition reaches_exchange (createFromRawAddress : string -> bool)
    (request : Request) : bool :=
  negb (strict_eq_str (query request !! "error") "access_denied")
  && has_key "code" (query request) && has_key "scope" (query request)
  && address_parses createFromRawAddress (query request !! "state").

(** The fields that the link callback writes. *)
Definition link_field_names : list string :=
  ["address"; "athleteId"; "accessToken"; "refreshToken"; "accessExpiresAt";
   "linkedAt"].

(** Every rewards entry sits under the id made of its own [rewardDay] and
    [athleteId]. *)
Definition rewards_keyed (w : World) : Prop :=
  forall (id : string) (d : obj),
    rewards w !! id = Some d ->
    exists day : string,
      d !! "rewardDay" = Some (JStr day)
      /\ id = rewardsId day (d !! "athleteId").

(** Every user record sits under the printed form of its own [athleteId]. *)
Definition users_keyed (w : World) : Prop :=
  forall (id : string) (d : obj),
    users w !! id = Some d -> id = template (d !! "athleteId").

(** The ways a link callback can end: without a change to the users
    collection, or with the merge-write of the record of one athlete. *)
Inductive link_outcome (e : Env) (request : Request) (w : World)
    : result Response -> World -> Prop :=
  | link_refused (code : Z) (w' : World) :
      users w' = users w -> rewards w' = rewards w -> schedule_suffix w w' ->
      code = 403 \/ code = 400 \/ code = 500 ->
      link_outcome e request w (Ret (mkResponse code StatusMessage)) w'
  | link_written (state : string)
        (athlete_id access_token refresh_token expires_at : jsval)
        (d : obj) (w' : World) :
      query request !! "state" = Some (JStr state) ->
      document_of
        (link_fields e (Some (JStr state)) (Some athlete_id) (Some access_token)
           (Some refresh_token) (Some expires_at)) = Some d ->
      users w' =
        <[template (Some athlete_id) :=
            merge_document d (default ∅ (users w !! template (Some athlete_id)))]>
          (users w) ->
      rewards w' = rewards w -> schedule_suffix w w' ->
      link_outcome e request w (Ret (mkResponse 200 StatusMessage)) w'.

(** An exchange answer that carries an athlete id, both tokens and the expiry. *)
Definition complete_answer (data : option jsval) : Prop :=
  exists (fs afs : list (string * jsval))
         (athlete_id access_token refresh_token expires_at : jsval),
    data = Some (JObj fs)
    /\ own_property fs "athlete" = Some (JObj afs)
    /\ own_property afs "id" = Some athlete_id
    /\ own_property fs "access_token" = Some access_token
    /\ own_property fs "refresh_token" = Some refresh_token
    /\ own_property fs "expires_at" = Some expires_at.

(** How often function [f] is invoked in a sequence. *)
Definition invocations_of (f : CloudFunction) (invocations : list Invocation) : nat :=
  length (List.filter (fun i => bool_decide (target i = f)) invocations).

(** ** More sample data *)

Definition next_day_env : Env :=
  mkEnv "20211104" "2021-11-04 09:00:00 +00:00" 1636016400000 None.

(** The exchange is answered, but the answer names no athlete. *)
Definition incomplete_answer_env : Env :=
  mkEnv "20211103" "2021-11-03 10:15:00 +00:00" 1635934500000
    (Some (Some (JObj [("access_token", JStr "t")]))).

(** The record of athlete 42 has lost its address. *)
Definition incomplete_user_world : World :=
  mkWorld {[ "42" := {[ "athleteId" := JNum 42 ]} ]} ∅ [] [].

Definition link_call : Invocation := mkInvocation Link sample_env link_request.

Definition status_call : Invocation := mkInvocation Status sample_env status_request.

Definition event_call (activity : Z) : Invocation :=
  mkInvocation Webhook sample_env (activity_event activity).

(** * Properties *)

(** ** Values *)

Lemma strict_eq_str_true (v : option jsval) (s : string) :
  strict_eq_str v s = true <-> v = Some (JStr s).
Proof.
  unfold strict_eq_str.
  destruct v as [[| | |t| |]|]; try (split; [discriminate | congruence]).
  rewrite String.eqb_eq. split; congruence.
Qed.

Lemma strict_eq_str_false (v : option jsval) (s : string) :
  strict_eq_str v s = false <-> v <> Some (JStr s).
Proof.
  rewrite <- strict_eq_str_true. destruct (strict_eq_str v s); split; congruence.
Qed.

Lemma has_key_true (k : string) (data : obj) :
  has_key k data = true <-> is_Some (data !! k).
Proof.
  unfold has_key. destruct (data !! k) as [v|]; split; intros H; eauto.
  - discriminate.
  - destruct H as [v Hv]. discriminate.
Qed.

Lemma has_key_false (k : string) (data : obj) :
  has_key k data = false <-> data !! k = None.
Proof. unfold has_key. destruct (data !! k); split; congruence. Qed.

(** Two strings with prefixes of one length are equal only piecewise. *)
Lemma append_inj_length (p1 p2 s1 s2 : string) :
  String.length p1 = String.length p2 ->
  p1 +:+ s1 = p2 +:+ s2 -> p1 = p2 /\ s1 = s2.
Proof.
  revert p2. induction p1 as [|c p1 IH]; intros [|c' p2]; simpl; try discriminate.
  - auto.
  - intros Hlen Heq. injection Hlen as Hlen. injection Heq as -> Heq.
    destruct (IH p2 Hlen Heq) as [-> ->]. auto.
Qed.

Lemma is_YYYYMMDD_length (s : string) :
  is_YYYYMMDD s = true -> String.length s = 8%nat.
Proof.
  unfold is_YYYYMMDD. intros H. apply andb_true_iff in H as [H _].
  by apply Nat.eqb_eq.
Qed.

(** *** Printed integers and days as document ids *)

Lemma no_slash_app (s t : string) :
  no_slash (s +:+ t) = no_slash s && no_slash t.
Proof.
  unfold no_slash. induction s as [|c s IH]; [reflexivity |].
  change (String c s +:+ t) with (String c (s +:+ t)).
  cbn [String.list_ascii_of_string forallb]. rewrite IH. by rewrite andb_assoc.
Qed.

Lemma pretty_N_char_no_slash (x : N) :
  negb (Ascii.nat_of_ascii (pretty_N_char x) =? 47)%nat = true.
Proof. unfold pretty_N_char. by repeat case_match. Qed.

Lemma pretty_N_go_no_slash (x : N) (s : string) :
  no_slash s = true -> no_slash (pretty_N_go x s) = true.
Proof.
  revert s. induction (N.lt_wf_0 x) as [x _ IH]; intros s Hs.
  destruct (decide (x = 0)%N) as [->|Hx]; [by rewrite pretty_N_go_0 |].
  rewrite pretty_N_go_step by lia.
  apply IH; [apply N.div_lt; lia |].
  unfold no_slash. cbn [String.list_ascii_of_string forallb].
  rewrite pretty_N_char_no_slash. exact Hs.
Qed.

Lemma pretty_N_go_not_empty (x : N) (s : string) :
  s <> "" -> pretty_N_go x s <> "".
Proof.
  revert s. induction (N.lt_wf_0 x) as [x _ IH]; intros s Hs.
  destruct (decide (x = 0)%N) as [->|Hx]; [by rewrite pretty_N_go_0 |].
  rewrite pretty_N_go_step by lia.
  apply IH; [apply N.div_lt; lia | discriminate].
Qed.

Lemma pretty_N_valid (x : N) :
  pretty x <> "" /\ no_slash (pretty x) = true.
Proof.
  unfold pretty, pretty_N. destruct (decide (x = 0)%N) as [->|Hx].
  - split; [discriminate | reflexivity].
  - split.
    + rewrite pretty_N_go_step by lia. apply pretty_N_go_not_empty. discriminate.
    + by apply pretty_N_go_no_slash.
Qed.

Lemma pretty_Z_valid (n : Z) :
  pretty n <> "" /\ no_slash (pretty n) = true.
Proof.
  destruct n as [|p|p].
  - split; [discriminate | reflexivity].
  - apply (pretty_N_valid (Npos p)).
  - change (pretty (Z.neg p)) with ("-" +:+ pretty (Npos p)).
    split; [discriminate |].
    rewrite no_slash_app. by rewrite (proj2 (pretty_N_valid (Npos p))).
Qed.

Lemma digits_no_slash (s : string) :
  forallb is_digit (String.list_ascii_of_string s) = true -> no_slash s = true.
Proof.
  unfold no_slash. induction s as [|c s IH]; [reflexivity |].
  cbn [String.list_ascii_of_string forallb]. intros [Hc Hs]%andb_true_iff.
  rewrite (IH Hs), andb_true_r.
  unfold is_digit in Hc. apply andb_true_iff in Hc as [Hc _].
  apply Nat.leb_le in Hc. apply negb_true_iff, Nat.eqb_neq. lia.
Qed.

(** The printed form of an integer id passes the check of a document id. *)
Lemma valid_document_id_number (n : Z) :
  valid_document_id (template (Some (JNum n))) = true.
Proof.
  unfold valid_document_id. cbn [template js_to_string].
  destruct (pretty_Z_valid n) as [Hne ->]. rewrite andb_true_r.
  apply negb_true_iff. by apply String.eqb_neq.
Qed.

(** So does the rewards key of a YYYYMMDD day and an integer athlete id. *)
Lemma valid_document_id_reward (day : string) (n : Z) :
  is_YYYYMMDD day = true ->
  valid_document_id (rewardsId day (Some (JNum n))) = true.
Proof.
  intros [_ Hdigits]%andb_true_iff.
  unfold valid_document_id, rewardsId. cbn [template js_to_string].
  rewrite !no_slash_app, (digits_no_slash _ Hdigits),
    (proj2 (pretty_Z_valid n)).
  rewrite andb_true_r. apply negb_true_iff, String.eqb_neq.
  destruct day; discriminate.
Qed.

(** ** Subscription verification (GET /webhook) *)

Section SubscriptionVerification.

Variable stravaConf : Config.
Variable e : Env.

(** C4. A GET request to the webhook is answered 400 when [hub.mode] or
    [hub.verify_token] is absent, 401 when both are present but the mode is
    not ["subscribe"] or the token is not the configured one, and otherwise
    200 with a JSON object whose ["hub.challenge"] is the value the request
    carried under that key. *)
Theorem webhook_subscription_verification (request : Request) (w : World) :
  method request = "GET" ->
  let data := query request in
  ((data !! "hub.mode" = None \/ data !! "hub.verify_token" = None) ->
     webhook stravaConf e request w = (Ret (mkResponse 400 StatusMessage), w))
  /\ (is_Some (data !! "hub.mode") -> is_Some (data !! "hub.verify_token") ->
      (data !! "hub.mode" <> Some (JStr "subscribe")
       \/ data !! "hub.verify_token" <> Some (JStr (verify_token stravaConf))) ->
      webhook stravaConf e request w = (Ret (mkResponse 401 StatusMessage), w))
  /\ (data !! "hub.mode" = Some (JStr "subscribe") ->
      data !! "hub.verify_token" = Some (JStr (verify_token stravaConf)) ->
      webhook stravaConf e request w =
        (Ret (mkResponse 200
                (JsonObject [("hub.challenge", data !! "hub.challenge")])), w)).
Proof.
  intros Hget data. unfold webhook, webhookSubscriptionHandler.
  rewrite Hget. simpl. fold data. repeat split.
  - intros [H | H]; apply has_key_false in H; rewrite H; simpl;
      [reflexivity | by rewrite orb_true_r].
  - intros Hm Ht Hbad.
    apply has_key_true in Hm, Ht. rewrite Hm, Ht. simpl.
    destruct Hbad as [H | H]; apply strict_eq_str_false in H; rewrite H; simpl;
      [reflexivity | by rewrite orb_true_r].
  - intros Hm Ht.
    assert (Hkm : has_key "hub.mode" data = true)
      by (apply has_key_true; rewrite Hm; eauto).
    assert (Hkt : has_key "hub.verify_token" data = true)
      by (apply has_key_true; rewrite Ht; eauto).
    rewrite Hkm, Hkt. simpl.
    apply strict_eq_str_true in Hm, Ht. by rewrite Hm, Ht.
Qed.

(** C10. A GET request with [hub.mode=subscribe] and the configured
    [hub.verify_token] but without any [hub.challenge] is accepted with 200,
    and the ["hub.challenge"] of the JSON body is [undefined]. *)
Theorem webhook_verification_without_challenge (request : Request) (w : World) :
  method request = "GET" ->
  query request !! "hub.mode" = Some (JStr "subscribe") ->
  query request !! "hub.verify_token" = Some (JStr (verify_token stravaConf)) ->
  query request !! "hub.challenge" = None ->
  webhook stravaConf e request w =
    (Ret (mkResponse 200 (JsonObject [("hub.challenge", None)])), w).
Proof.
  intros Hget Hm Ht Hc. unfold webhook, webhookSubscriptionHandler.
  rewrite Hget. simpl. unfold has_key. rewrite Hm, Ht, Hc. simpl.
  by rewrite !String.eqb_refl.
Qed.

End SubscriptionVerification.

(** ** The rewards key *)

(** Keys built from day strings of one length collide only when the day
    strings and the printed athlete ids are the same. *)
Lemma rewardsId_inj_template (d1 d2 : string) (a1 a2 : option jsval) :
  String.length d1 = String.length d2 ->
  rewardsId d1 a1 = rewardsId d2 a2 -> d1 = d2 /\ template a1 = template a2.
Proof.
  unfold rewardsId. intros Hlen Heq.
  destruct (append_inj_length _ _ _ _ Hlen Heq) as [-> Hrest].
  simpl in Hrest. injection Hrest as Hrest. auto.
Qed.

(** C7. The rewards key is a function of the day string and the athlete id,
    and on ['YYYYMMDD'] day strings and integer athlete ids it is injective:
    two pairs have the same key exactly when they are the same pair. *)
Theorem rewardsId_deterministic_injective (d1 d2 : string) (a1 a2 : Z) :
  is_YYYYMMDD d1 = true -> is_YYYYMMDD d2 = true ->
  rewardsId d1 (Some (JNum a1)) = rewardsId d2 (Some (JNum a2))
  <-> (d1, a1) = (d2, a2).
Proof.
  intros H1 H2. split.
  - intros Heq.
    apply is_YYYYMMDD_length in H1, H2.
    destruct (rewardsId_inj_template d1 d2 (Some (JNum a1)) (Some (JNum a2)))
      as [-> Ha]; [congruence | exact Heq |].
    simpl in Ha. apply (inj pretty) in Ha. by subst.
  - intros [= -> ->]. reflexivity.
Qed.

(** The key prints the athlete id: ids of different JavaScript types that
    print alike share a key. *)
Example rewardsId_number_and_string :
  rewardsId "20211103" (Some (JNum 42)) = "20211103-42"
  /\ rewardsId "20211103" (Some (JStr "42")) = "20211103-42".
Proof. split; reflexivity. Qed.

Lemma rewardsId_deterministic_injective_witness :
  is_YYYYMMDD "20211103" = true /\ is_YYYYMMDD "20211104" = true
  /\ rewardsId "20211103" (Some (JNum 94380856))
     <> rewardsId "20211104" (Some (JNum 94380856)).
Proof.
  split; [reflexivity | split; [reflexivity |]].
  intros Heq.
  apply (rewardsId_deterministic_injective "20211103" "20211104" 94380856 94380856)
    in Heq; [discriminate | reflexivity | reflexivity].
Defined.

(** ** Collaborator calls *)

Lemma writes_snoc (l : list Call) (c : Call) :
  writes (l ++ [c]) = (writes l + (if is_write c then 1 else 0))%nat.
Proof.
  unfold writes. rewrite List.filter_app, length_app. simpl.
  destruct (is_write c); reflexivity.
Qed.

(** A Firestore call logs itself and takes the head of the fault schedule. *)
Lemma firestore_call_eq (c : Call) (w : World) :
  firestore_call c w =
    match faults w with
    | [] => (Ret tt, mkWorld (users w) (rewards w) [] (calls w ++ [c]))
    | false :: fs => (Ret tt, mkWorld (users w) (rewards w) fs (calls w ++ [c]))
    | true :: fs =>
        (Throw "firestore: call failed",
         mkWorld (users w) (rewards w) fs (calls w ++ [c]))
    end.
Proof.
  unfold firestore_call, log_call, next_fault, bind, ret, throw. simpl.
  destruct (faults w) as [|[|] fs]; reflexivity.
Qed.

Lemma schedule_suffix_refl (w : World) : schedule_suffix w w.
Proof. by exists 0%nat. Qed.

Lemma schedule_suffix_trans (w1 w2 w3 : World) :
  schedule_suffix w1 w2 -> schedule_suffix w2 w3 -> schedule_suffix w1 w3.
Proof.
  intros [n Hn] [m Hm]. exists (n + m)%nat. by rewrite Hm, Hn, drop_drop.
Qed.

Lemma schedule_suffix_reliable (w w' : World) :
  schedule_suffix w w' -> reliable w -> reliable w'.
Proof. unfold reliable. intros [n ->] H. by apply Forall_drop. Qed.

Lemma doc_get_eq (c : Collection) (id : string) (w : World) :
  doc_get c id w =
    match faults w with
    | true :: fs =>
        (Throw "firestore: call failed",
         mkWorld (users w) (rewards w) fs (calls w ++ [DocGet c id]))
    | fs =>
        (Ret (DocumentSnapshot (collection c w !! id)),
         mkWorld (users w) (rewards w) (tail fs) (calls w ++ [DocGet c id]))
    end.
Proof.
  unfold doc_get, bind. rewrite firestore_call_eq.
  destruct (faults w) as [|[|] fs]; destruct c; reflexivity.
Qed.

Lemma commit_merge_eq (c : Collection) (id : string) (d : obj) (w : World) :
  commit_merge c id d w =
    match faults w with
    | true :: fs =>
        (Throw "firestore: call failed",
         mkWorld (users w) (rewards w) fs (calls w ++ [DocSet c id]))
    | fs =>
        (Ret tt,
         set_collection c
           (<[id := merge_document d (default ∅ (collection c w !! id))]>
              (collection c w))
           (mkWorld (users w) (rewards w) (tail fs) (calls w ++ [DocSet c id])))
    end.
Proof.
  unfold commit_merge, bind. rewrite firestore_call_eq.
  destruct (faults w) as [|[|] fs]; destruct c; reflexivity.
Qed.

Lemma query_get_eq (q : Query) (w : World) :
  query_get q w =
    match faults w with
    | true :: fs =>
        (Throw "firestore: call failed",
         mkWorld (users w) (rewards w) fs
           (calls w ++ [QueryGet (q_collection q) (q_field q)]))
    | fs =>
        (Ret (QuerySnapshot
                (filter (fun kd => matches q kd.2 = true)
                   (map_to_list (collection (q_collection q) w)))),
         mkWorld (users w) (rewards w) (tail fs)
           (calls w ++ [QueryGet (q_collection q) (q_field q)]))
    end.
Proof.
  unfold query_get, bind. rewrite firestore_call_eq.
  destruct (faults w) as [|[|] fs]; destruct (q_collection q); reflexivity.
Qed.

(** ** Event ingestion (POST /webhook) *)

Lemma merge_document_empty (d : obj) : merge_document d ∅ = d.
Proof. unfold merge_document. apply (right_id_L ∅ (union_with _)). Qed.

(** A merge-write to a document that does not exist creates it. *)
Lemma insert_merge_absent (m : gmap string obj) (id : string) (d : obj) :
  m !! id = None -> <[id := merge_document d (default ∅ (m !! id))]> m = <[id := d]> m.
Proof. intros ->. simpl. by rewrite merge_document_empty. Qed.

Ltac solve_suffix Hf :=
  unfold schedule_suffix; simpl; rewrite Hf;
  first [ by exists 0%nat | by exists 1%nat | by exists 2%nat | by exists 3%nat ].

Ltac solve_writes :=
  simpl; rewrite ?writes_snoc; simpl; lia.

#[local] Arguments reward_fields : simpl never.
#[local] Arguments link_fields : simpl never.
#[local] Arguments document_of : simpl never.
#[local] Arguments rewardsId : simpl never.

(** Every run of the [try] block ends in one of these outcomes. *)
Lemma webhookEventTry_outcome (e : Env) (data : obj) (w : World) :
  try_outcome e data w (webhookEventTry e data w).1 (webhookEventTry e data w).2.
Proof.
  unfold webhookEventTry, bind. rewrite doc_get_eq.
  destruct (users w !! template (data !! "owner_id")) as [u|] eqn:Hu.
  2: { destruct (faults w) as [|[|] fs] eqn:Hf; simpl; rewrite ?Hu; simpl;
       first [ apply try_ignored | apply try_thrown ];
       first [ reflexivity | solve_writes | solve_suffix Hf ]. }
  destruct (rewards w !! rewardsId (formattedDate e) (u !! "athleteId"))
    as [r|] eqn:Hr.
  { destruct (faults w) as [|[|] [|[|] fs]] eqn:Hf; simpl; rewrite ?Hu; simpl;
      rewrite ?Hr; simpl;
      first [ apply try_ignored | apply try_thrown ];
      first [ reflexivity | solve_writes | solve_suffix Hf ]. }
  unfold doc_set_merge, validate_document, bind.
  destruct (document_of (reward_fields e (u !! "address") (u !! "athleteId")
                           (data !! "object_id"))) as [d|] eqn:Hd.
  2: { destruct (faults w) as [|[|] [|[|] fs]] eqn:Hf; simpl; rewrite ?Hu; simpl;
      rewrite ?Hr; simpl; unfold bind; simpl; try rewrite Hd; simpl;
      first [ apply try_ignored | apply try_thrown ];
      first [ reflexivity | solve_writes | solve_suffix Hf ]. }
  destruct (faults w) as [|[|] [|[|] [|[|] fs]]] eqn:Hf; simpl; rewrite ?Hu; simpl;
      rewrite ?Hr; simpl; unfold bind; simpl; try rewrite Hd; simpl.
  all: try (rewrite commit_merge_eq; simpl; rewrite ?Hr; simpl).
  all: try (apply try_thrown; first [ reflexivity | solve_writes | solve_suffix Hf ]).
  all: try (apply (try_write_failed e data w _ u);
      first [ assumption | reflexivity | solve_writes | solve_suffix Hf ]).
  all: apply (try_received e data w u d);
      first [ assumption | reflexivity | solve_writes | solve_suffix Hf | idtac ].
  all: simpl; by rewrite (insert_merge_absent _ _ _ Hr).
Qed.

Section EventIngestion.

Variable stravaConf : Config.
Variable e : Env.

(** A POST that passes the shape check is ignored at once, or runs the
    [try] block under its [catch]. *)
Lemma webhook_post_eq (request : Request) :
  method request = "POST" -> passes_shape_check (body request) ->
  webhook stravaConf e request =
    if strict_eq_str (body request !! "object_type") "activity"
       && strict_eq_str (body request !! "aspect_type") "create"
    then catch (webhookEventTry e (body request))
               (fun reason => send 200 "EVENT_IGNORED")
    else send 200 "EVENT_IGNORED".
Proof.
  intros Hpost (H1 & H2 & H3 & H4).
  unfold webhook, webhookEventHandler. rewrite Hpost. simpl.
  apply has_key_true in H1, H2, H3, H4. rewrite H1, H2, H3, H4. simpl.
  destruct (strict_eq_str (body request !! "object_type") "activity");
    destruct (strict_eq_str (body request !! "aspect_type") "create");
    reflexivity.
Qed.

(** C3. A POST event that passes the shape check is always answered, with
    status 200 and body [EVENT_IGNORED] or [EVENT_RECEIVED]; when the
    processing block raises an exception (a Firestore read or write that
    fails, a value Firestore refuses) the answer is 200 [EVENT_IGNORED] and
    both collections are as before. *)
Theorem webhook_post_swallows_exceptions (request : Request) (w : World) :
  method request = "POST" -> passes_shape_check (body request) ->
  exists (r : Response) (w' : World),
    webhook stravaConf e request w = (Ret r, w')
    /\ statusCode r = 200
    /\ (payload r = Text "EVENT_IGNORED" \/ payload r = Text "EVENT_RECEIVED")
    /\ (forall reason w1,
          webhookEventTry e (body request) w = (Throw reason, w1) ->
          r = mkResponse 200 (Text "EVENT_IGNORED")
          /\ users w' = users w /\ rewards w' = rewards w).
Proof.
  intros Hpost Hshape. rewrite (webhook_post_eq request Hpost Hshape).
  destruct (strict_eq_str (body request !! "object_type") "activity"
            && strict_eq_str (body request !! "aspect_type") "create").
  - unfold catch.
    pose proof (webhookEventTry_outcome e (body request) w) as Hout.
    destruct (webhookEventTry e (body request) w) as [r w1]. simpl in Hout.
    inversion Hout; subst; eexists _, _; unfold send, ret;
      (split; [reflexivity |]); simpl;
      (split; [reflexivity |]); (split; [by auto |]);
      intros reason' w1' Heq; try discriminate Heq; auto.
  - eexists _, _. unfold send, ret. repeat split; eauto.
Qed.

(** C8. A POST event that passes the shape check and is not an activity
    creation, or whose owner has no user record, is answered 200
    [EVENT_IGNORED]; both collections are unchanged and no write is sent to
    the store. *)
Theorem webhook_post_ignored_classes (request : Request) (w : World) :
  method request = "POST" -> passes_shape_check (body request) ->
  body request !! "object_type" <> Some (JStr "activity")
  \/ body request !! "aspect_type" <> Some (JStr "create")
  \/ users w !! template (body request !! "owner_id") = None ->
  exists w' : World,
    webhook stravaConf e request w =
      (Ret (mkResponse 200 (Text "EVENT_IGNORED")), w')
    /\ users w' = users w /\ rewards w' = rewards w
    /\ writes (calls w') = writes (calls w).
Proof.
  intros Hpost Hshape Hclass. rewrite (webhook_post_eq request Hpost Hshape).
  destruct (strict_eq_str (body request !! "object_type") "activity") eqn:Ho;
    [destruct (strict_eq_str (body request !! "aspect_type") "create") eqn:Ha |];
    simpl; try (by exists w).
  apply strict_eq_str_true in Ho, Ha.
  destruct Hclass as [H | [H | Hu]]; [done | done |].
  unfold catch.
  pose proof (webhookEventTry_outcome e (body request) w) as Hout.
  destruct (webhookEventTry e (body request) w) as [r w1]. simpl in Hout.
  inversion Hout; subst; try congruence; by exists w1.
Qed.

End EventIngestion.

(** ** Idempotent creation of rewards entries *)

Lemma document_of_reward_fields (e : Env) (address athleteId activityId : jsval) :
  exists d : obj,
    document_of (reward_fields e (Some address) (Some athleteId) (Some activityId))
      = Some d
    /\ d !! "address" = Some address
    /\ d !! "athleteId" = Some athleteId
    /\ d !! "activityId" = Some activityId
    /\ d !! "isProcessed" = Some (JBool false)
    /\ d !! "isConfirmed" = Some (JBool false)
    /\ d !! "rewardDay" = Some (JStr (formattedDate e)).
Proof.
  eexists. split; [reflexivity |].
  repeat split; by simplify_map_eq.
Qed.

Ltac kill_fault Hrel Hf :=
  exfalso; unfold reliable in Hrel; rewrite Hf in Hrel;
  repeat (apply Forall_cons in Hrel as [? Hrel]); discriminate.

Ltac solve_reliable Hrel Hf :=
  eapply schedule_suffix_reliable; [| exact Hrel]; solve_suffix Hf.

(** With a store that answers, the [try] block ignores the event when today's
    entry of the athlete exists and creates the entry otherwise. *)
Lemma webhookEventTry_reliable (e : Env) (data u : obj) (w : World) :
  reliable w ->
  users w !! template (data !! "owner_id") = Some u ->
  is_Some (u !! "address") -> is_Some (u !! "athleteId") ->
  is_Some (data !! "object_id") ->
  let id := rewardsId (formattedDate e) (u !! "athleteId") in
  exists w' : World,
    users w' = users w /\ reliable w'
    /\ match rewards w !! id with
       | Some _ =>
           webhookEventTry e data w =
             (Ret (mkResponse 200 (Text "EVENT_IGNORED")), w')
           /\ rewards w' = rewards w
           /\ writes (calls w') = writes (calls w)
       | None =>
           webhookEventTry e data w =
             (Ret (mkResponse 200 (Text "EVENT_RECEIVED")), w')
           /\ writes (calls w') = S (writes (calls w))
           /\ exists d : obj,
                document_of (reward_fields e (u !! "address") (u !! "athleteId")
                               (data !! "object_id")) = Some d
                /\ rewards w' = <[id := d]> (rewards w)
       end.
Proof.
  intros Hrel Hu [address Ha] [athleteId Hi] [activityId Ho] id.
  destruct (document_of_reward_fields e address athleteId activityId)
    as (d & Hd & _).
  rewrite <- Ha, <- Hi, <- Ho in Hd.
  unfold webhookEventTry, bind, doc_set_merge, validate_document.
  rewrite doc_get_eq. subst id.
  destruct (rewards w !! rewardsId (formattedDate e) (u !! "athleteId"))
    as [r0|] eqn:Hr.
  - destruct (faults w) as [|[|] [|[|] fs]] eqn:Hf; try kill_fault Hrel Hf;
      simpl; rewrite Hu; simpl; rewrite Hr; simpl;
      eexists; (split; [| split; [| split; [reflexivity |]]]);
      first [ reflexivity | solve_reliable Hrel Hf | split; [reflexivity | solve_writes] ].
  - destruct (faults w) as [|[|] [|[|] [|[|] fs]]] eqn:Hf; try kill_fault Hrel Hf;
      simpl; rewrite Hu; simpl; rewrite Hr; simpl; unfold bind; simpl;
      rewrite Hd; simpl; rewrite ?commit_merge_eq; simpl; rewrite ?Hr; simpl;
      eexists; (split; [| split; [| split; [reflexivity |]]]);
      first [ reflexivity | solve_reliable Hrel Hf
            | split; [solve_writes | exists d; split; [reflexivity |];
                simpl; by rewrite merge_document_empty] ].
Qed.

Section IdempotentRewards.

Variable stravaConf : Config.
Variables (day : string) (owner : jsval) (u : obj).

Let entry : string := rewardsId day (u !! "athleteId").

(** One delivery on a store that answers. *)
Lemma webhook_activity_created (delivery : Env * Request) (w : World) :
  reliable w ->
  users w !! template (Some owner) = Some u ->
  is_Some (u !! "address") -> is_Some (u !! "athleteId") ->
  activity_created_on day owner delivery ->
  exists w' : World,
    users w' = users w /\ reliable w'
    /\ match rewards w !! entry with
       | Some _ =>
           webhook stravaConf delivery.1 delivery.2 w =
             (Ret (mkResponse 200 (Text "EVENT_IGNORED")), w')
           /\ rewards w' = rewards w
           /\ writes (calls w') = writes (calls w)
       | None =>
           webhook stravaConf delivery.1 delivery.2 w =
             (Ret (mkResponse 200 (Text "EVENT_RECEIVED")), w')
           /\ writes (calls w') = S (writes (calls w))
           /\ exists d : obj,
                document_of
                  (reward_fields delivery.1 (u !! "address") (u !! "athleteId")
                     (body delivery.2 !! "object_id")) = Some d
                /\ rewards w' = <[entry := d]> (rewards w)
       end.
Proof.
  intros Hrel Hu Ha Hi (Hpost & Hday & Hobj & Hasp & Hoid & Hown).
  assert (Hshape : passes_shape_check (body delivery.2)).
  { unfold passes_shape_check. rewrite Hobj, Hasp, Hown. eauto. }
  rewrite (webhook_post_eq stravaConf delivery.1 delivery.2 Hpost Hshape).
  apply strict_eq_str_true in Hobj, Hasp. rewrite Hobj, Hasp. simpl.
  rewrite <- Hown in Hu.
  destruct (webhookEventTry_reliable delivery.1 (body delivery.2) u w
              Hrel Hu Ha Hi Hoid) as (w' & Husers & Hrel' & Hcases).
  rewrite Hday in Hcases. fold entry in Hcases.
  exists w'. split; [exact Husers | split; [exact Hrel' |]].
  unfold catch.
  destruct (rewards w !! entry).
  - destruct Hcases as (-> & ? & ?). auto.
  - destruct Hcases as (-> & ? & ?). auto.
Qed.

(** Once today's entry exists, further deliveries are ignored and write
    nothing. *)
Lemma deliver_after_creation (events : list (Env * Request)) (w : World) :
  reliable w ->
  users w !! template (Some owner) = Some u ->
  is_Some (u !! "address") -> is_Some (u !! "athleteId") ->
  is_Some (rewards w !! entry) ->
  Forall (activity_created_on day owner) events ->
  exists (rs : list (result Response)) (w' : World),
    deliver stravaConf events w = (rs, w')
    /\ Forall (fun r => r = Ret (mkResponse 200 (Text "EVENT_IGNORED"))) rs
    /\ rewards w' = rewards w
    /\ writes (calls w') = writes (calls w).
Proof.
  intros Hrel Hu Ha Hi Hr Hall. revert w Hrel Hu Hr.
  induction Hall as [|delivery events Hd Hall IH]; intros w Hrel Hu Hr.
  - exists [], w. simpl. auto.
  - destruct (webhook_activity_created delivery w Hrel Hu Ha Hi Hd)
      as (w1 & Husers & Hrel1 & Hcases).
    destruct Hr as [r0 Hr]. rewrite Hr in Hcases.
    destruct Hcases as (Hweb & Hrew & Hwr).
    destruct (IH w1) as (rs & w' & Hrun & Hrs & Hrew' & Hwr').
    + exact Hrel1.
    + by rewrite Husers.
    + rewrite Hrew, Hr. eauto.
    + exists (Ret (mkResponse 200 (Text "EVENT_IGNORED")) :: rs), w'.
      simpl. destruct delivery as [e request]. simpl in Hweb.
      rewrite Hweb, Hrun. repeat split; [by constructor | congruence | congruence].
Qed.

(** C1 (as the code has it). [N >= 1] activity-creation events of one
    owner, delivered one after the other on one day to a store whose calls
    all succeed, where the day is a YYYYMMDD string, the owner id is an
    integer and names a user record with an address and an integer athlete
    id: afterwards the rewards entry of that day and athlete exists; every
    delivery after the first is answered 200 [EVENT_IGNORED], leaves the
    rewards collection as it was and sends no write. The first delivery
    creates the entry, with its own activity id, unless the entry was there
    already. *)
Theorem idempotent_reward_creation (first : Env * Request)
    (later : list (Env * Request)) (w : World) :
  reliable w ->
  is_YYYYMMDD day = true ->
  (exists m : Z, owner = JNum m) ->
  users w !! template (Some owner) = Some u ->
  is_Some (u !! "address") ->
  (exists n : Z, u !! "athleteId" = Some (JNum n)) ->
  Forall (activity_created_on day owner) (first :: later) ->
  exists (r1 : Response) (w1 : World) (rs : list (result Response))
         (w' : World),
    webhook stravaConf first.1 first.2 w = (Ret r1, w1)
    /\ deliver stravaConf (first :: later) w = (Ret r1 :: rs, w')
    /\ valid_document_id (template (Some owner)) = true
    /\ valid_document_id entry = true
    /\ is_Some (rewards w' !! entry)
    /\ Forall (fun r => r = Ret (mkResponse 200 (Text "EVENT_IGNORED"))) rs
    /\ rewards w' = rewards w1
    /\ writes (calls w') = writes (calls w1)
    /\ match rewards w !! entry with
       | Some _ =>
           r1 = mkResponse 200 (Text "EVENT_IGNORED")
           /\ rewards w1 = rewards w
           /\ writes (calls w1) = writes (calls w)
       | None =>
           r1 = mkResponse 200 (Text "EVENT_RECEIVED")
           /\ writes (calls w1) = S (writes (calls w))
           /\ exists d : obj,
                rewards w1 = <[entry := d]> (rewards w)
                /\ d !! "athleteId" = u !! "athleteId"
                /\ d !! "rewardDay" = Some (JStr day)
                /\ d !! "activityId" = body first.2 !! "object_id"
                /\ d !! "isProcessed" = Some (JBool false)
       end.
Proof.
  intros Hrel Hday8 [m Hown] Hu Ha [n Hn] Hall.
  assert (Hi : is_Some (u !! "athleteId")) by (rewrite Hn; eauto).
  apply Forall_cons in Hall as [Hfirst Hlater].
  destruct (webhook_activity_created first w Hrel Hu Ha Hi Hfirst)
    as (w1 & Husers & Hrel1 & Hcases).
  assert (Hw1 : exists r1,
             webhook stravaConf first.1 first.2 w = (Ret r1, w1)
             /\ is_Some (rewards w1 !! entry)).
  { destruct (rewards w !! entry) as [r0|] eqn:Hr.
    - destruct Hcases as (Hweb & Hrew & _). eexists. split; [exact Hweb |].
      rewrite Hrew, Hr. eauto.
    - destruct Hcases as (Hweb & _ & d & _ & Hrew). eexists.
      split; [exact Hweb |]. rewrite Hrew, lookup_insert_eq. eauto. }
  destruct Hw1 as (r1 & Hweb & Hsome).
  destruct (deliver_after_creation later w1) as (rs & w' & Hrun & Hrs & Hrew' & Hwr');
    try assumption; [by rewrite Husers |].
  exists r1, w1, rs, w'.
  split; [exact Hweb |].
  split; [simpl; destruct first as [e request]; simpl in Hweb;
          by rewrite Hweb, Hrun |].
  split; [rewrite Hown; apply valid_document_id_number |].
  split; [unfold entry; rewrite Hn; by apply valid_document_id_reward |].
  split; [by rewrite Hrew' |].
  split; [exact Hrs |]. split; [exact Hrew' |]. split; [exact Hwr' |].
  destruct (rewards w !! entry) as [r0|] eqn:Hr.
  - destruct Hcases as (Hweb' & Hrew & Hwr). rewrite Hweb in Hweb'.
    injection Hweb' as ->. auto.
  - destruct Hcases as (Hweb' & Hwr & d & Hd & Hrew). rewrite Hweb in Hweb'.
    injection Hweb' as ->. split; [reflexivity | split; [exact Hwr |]].
    exists d. split; [exact Hrew |].
    destruct Ha as [address Ha], Hi as [athleteId Hi].
    destruct Hfirst as (_ & Hday & _ & _ & [activityId Ho] & _).
    destruct (document_of_reward_fields first.1 address athleteId activityId)
      as (d' & Hd' & _ & Hd_id & Hd_act & Hd_proc & _ & Hd_day).
    rewrite Ha, Hi, Ho in Hd. rewrite Hd in Hd'. injection Hd' as <-.
    rewrite Hi, Ho, <- Hday. auto.
Qed.

End IdempotentRewards.

(** ** The address gate and the status check *)

Section AddressGate.

Variable createFromRawAddress : string -> bool.
Variable encodeURIComponent : string -> string.
Variable stravaConf : Config.
Variable e : Env.

Lemma address_parses_has_key (k : string) (data : obj) :
  address_parses createFromRawAddress (data !! k) = true -> has_key k data = true.
Proof. unfold has_key. by destruct (data !! k). Qed.

(** A GET status request with an address that parses runs the query: 500
    when the query fails, and otherwise 404, whatever the query found. *)
Lemma status_query_eq (request : Request) (w : World) :
  method request = "GET" ->
  address_parses createFromRawAddress (query request !! "dhealth.address") = true ->
  status createFromRawAddress request w =
    match faults w with
    | true :: fs =>
        (Ret (mkResponse 500 StatusMessage),
         mkWorld (users w) (rewards w) fs (calls w ++ [QueryGet Users "address"]))
    | fs =>
        (Ret (mkResponse 404 StatusMessage),
         mkWorld (users w) (rewards w) (tail fs)
           (calls w ++ [QueryGet Users "address"]))
    end.
Proof.
  intros Hget Hparse. unfold status. rewrite Hget. simpl.
  rewrite (address_parses_has_key _ _ Hparse), Hparse. simpl.
  destruct (query request !! "dhealth.address") as [a|] eqn:Ha; [| discriminate].
  unfold where_eq, bind, ret, catch. rewrite query_get_eq. simpl.
  destruct (faults w) as [|[|] fs]; reflexivity.
Qed.

(** No request is ever answered 200 by the status check. *)
Lemma status_never_200 (request : Request) (w w' : World) (r : Response) :
  status createFromRawAddress request w = (Ret r, w') -> statusCode r <> 200.
Proof.
  destruct (String.eqb (method request) "GET") eqn:Hget.
  - apply String.eqb_eq in Hget.
    destruct (address_parses createFromRawAddress
                (query request !! "dhealth.address")) eqn:Hparse.
    + rewrite (status_query_eq request w Hget Hparse).
      destruct (faults w) as [|[|] fs]; intros [= <- _]; simpl; lia.
    + unfold status. rewrite Hget, Hparse. simpl.
      destruct (has_key "dhealth.address" (query request));
        intros [= <- _]; simpl; lia.
  - unfold status. rewrite Hget. simpl. intros [= <- _]. simpl. lia.
Qed.

(** C2 (what the code does). A GET status request for an address that
    parses, with a user record holding that very address and a query that
    succeeds, is answered 404: the handler reads [exists] from the query
    snapshot, which has no such property. *)
Theorem status_linked_address_answers_404 (request : Request) (w : World) :
  method request = "GET" ->
  address_parses createFromRawAddress (query request !! "dhealth.address") = true ->
  (exists (id : string) (d : obj),
      users w !! id = Some d
      /\ d !! "address" = query request !! "dhealth.address") ->
  head (faults w) <> Some true ->
  exists w' : World,
    status createFromRawAddress request w = (Ret (mkResponse 404 StatusMessage), w').
Proof.
  intros Hget Hparse _ Hok. rewrite (status_query_eq request w Hget Hparse).
  destruct (faults w) as [|[|] fs]; simpl in Hok; [eauto | congruence | eauto].
Qed.

(** C5 (as the code has it). When the address parameter is missing or does
    not parse, [authorize] answers 400, [status] answers 400 to a GET and
    403 to any other method, and [link] answers 403 to a denial and 400
    otherwise; in each case the world is untouched: no collaborator is
    called. *)
Theorem address_gate (request : Request) (w : World) :
  (address_parses createFromRawAddress (query request !! "dhealth.address") = false ->
     authorize createFromRawAddress encodeURIComponent stravaConf request w
       = (Ret (mkResponse 400 StatusMessage), w)
     /\ status createFromRawAddress request w
        = (Ret (mkResponse (if String.eqb (method request) "GET" then 400 else 403)
                  StatusMessage), w))
  /\ (address_parses createFromRawAddress (query request !! "state") = false ->
      link createFromRawAddress stravaConf e request w
        = (Ret (mkResponse
                  (if strict_eq_str (query request !! "error") "access_denied"
                   then 403 else 400) StatusMessage), w)).
Proof.
  split.
  - intros Hbad. split.
    + unfold authorize. rewrite Hbad. simpl.
      by destruct (has_key "dhealth.address" (query request)).
    + unfold status. rewrite Hbad. simpl.
      destruct (String.eqb (method request) "GET"); simpl; [| reflexivity].
      by destruct (has_key "dhealth.address" (query request)).
  - intros Hbad. unfold link. rewrite Hbad. simpl.
    destruct (strict_eq_str (query request !! "error") "access_denied") eqn:Hden.
    + apply strict_eq_str_true in Hden.
      unfold has_key at 1. rewrite Hden. reflexivity.
    + rewrite andb_false_r.
      by destruct (negb (has_key "code" (query request))
                   || negb (has_key "scope" (query request))
                   || negb (has_key "state" (query request))).
Qed.

End AddressGate.

(** ** The link callback *)

Lemma document_of_link_fields (e : Env)
    (address athlete_id access_token refresh_token expires_at : jsval) :
  exists d : obj,
    document_of (link_fields e (Some address) (Some athlete_id) (Some access_token)
                   (Some refresh_token) (Some expires_at)) = Some d
    /\ d !! "address" = Some address
    /\ d !! "athleteId" = Some athlete_id
    /\ d !! "accessToken" = Some access_token
    /\ d !! "refreshToken" = Some refresh_token
    /\ d !! "accessExpiresAt" = Some expires_at
    /\ d !! "linkedAt" = Some (JNum (nowMillis e)).
Proof.
  eexists. split; [reflexivity |].
  repeat split; by simplify_map_eq.
Qed.

Lemma document_of_link_fields_inv (e : Env)
    (address athlete_id access_token refresh_token expires_at : option jsval)
    (d : obj) :
  document_of (link_fields e address athlete_id access_token refresh_token expires_at)
    = Some d ->
  is_Some address /\ is_Some athlete_id /\ is_Some access_token
  /\ is_Some refresh_token /\ is_Some expires_at.
Proof.
  destruct address, athlete_id, access_token, refresh_token, expires_at;
    try discriminate; eauto 10.
Qed.


(** A merged value prints like the value that was written. *)
Lemma js_to_string_merge_value (new old : jsval) :
  js_to_string (merge_value new old) = js_to_string new.
Proof. destruct new as [| | | | |fs]; try reflexivity. by destruct old, fs. Qed.

Lemma merge_document_lookup (d old : obj) (k : string) :
  merge_document d old !! k =
    match d !! k, old !! k with
    | Some new, Some stored => Some (merge_value new stored)
    | Some new, None => Some new
    | None, stored => stored
    end.
Proof.
  unfold merge_document. rewrite lookup_union_with.
  by destruct (d !! k), (old !! k).
Qed.

(** A value that is not a map is stored as it is written. *)
Lemma merge_document_lookup_plain (d old : obj) (k : string) (v : jsval) :
  d !! k = Some v -> (forall fs, v <> JObj fs) ->
  merge_document d old !! k = Some v.
Proof.
  intros Hd Hplain. rewrite merge_document_lookup, Hd.
  destruct (old !! k) as [stored|]; [| reflexivity].
  destruct v; try reflexivity. by destruct (Hplain fields).
Qed.

Lemma link_fields_other (e : Env)
    (address athlete_id access_token refresh_token expires_at : option jsval)
    (d : obj) (k : string) :
  document_of (link_fields e address athlete_id access_token refresh_token expires_at)
    = Some d ->
  k ∉ link_field_names -> d !! k = None.
Proof.
  intros Hd Hk.
  apply document_of_link_fields_inv in Hd as Hfields.
  destruct Hfields as ([a ->] & [b ->] & [c ->] & [f ->] & [g ->]).
  destruct (document_of_link_fields e a b c f g) as (d' & Hd' & _).
  rewrite Hd in Hd'. injection Hd' as <-.
  revert Hd. unfold link_fields, document_of. simpl. intros [= <-].
  unfold link_field_names in Hk.
  rewrite !lookup_insert_ne; [apply lookup_empty | ..];
    intros <-; apply Hk; repeat first [apply list_elem_of_here | apply list_elem_of_further].
Qed.

Lemma stored_value_plain (v : jsval) (before : option jsval) :
  plain_value v -> stored_value v before = v.
Proof.
  intros Hplain. destruct before as [old|]; [| reflexivity].
  destruct v; try reflexivity. by destruct (Hplain fields).
Qed.

Lemma merge_document_holds_written (d old : obj) (k : string) (v : jsval) :
  d !! k = Some v -> holds_written (merge_document d old) old k v.
Proof.
  intros Hd.
  assert (Hk : merge_document d old !! k = Some (stored_value v (old !! k))).
  { rewrite merge_document_lookup, Hd. by destruct (old !! k). }
  split; [exact Hk |]. intros Hplain. by rewrite Hk, stored_value_plain.
Qed.

(** The record that a link leaves under an athlete's id: the six fields of
    the callback as a merge-write stores them, and every other field as it
    was. *)
Lemma linked_record (e : Env)
    (address athlete_id access_token refresh_token expires_at : jsval)
    (d old : obj) :
  document_of (link_fields e (Some address) (Some athlete_id) (Some access_token)
                 (Some refresh_token) (Some expires_at)) = Some d ->
  holds_written (merge_document d old) old "address" address
  /\ holds_written (merge_document d old) old "athleteId" athlete_id
  /\ holds_written (merge_document d old) old "accessToken" access_token
  /\ holds_written (merge_document d old) old "refreshToken" refresh_token
  /\ holds_written (merge_document d old) old "accessExpiresAt" expires_at
  /\ merge_document d old !! "linkedAt" = Some (JNum (nowMillis e))
  /\ (forall k : string,
        k ∉ link_field_names -> merge_document d old !! k = old !! k).
Proof.
  intros Hd.
  destruct (document_of_link_fields e address athlete_id access_token
              refresh_token expires_at)
    as (d' & Hd' & H1 & H2 & H3 & H4 & H5 & H6).
  rewrite Hd in Hd'. injection Hd' as <-.
  do 5 (split; [by apply merge_document_holds_written |]).
  split; [by apply merge_document_lookup_plain |].
  intros k Hk.
  by rewrite merge_document_lookup, (link_fields_other _ _ _ _ _ _ _ _ Hd Hk).
Qed.

Section LinkCallback.

Variable createFromRawAddress : string -> bool.
Variable stravaConf : Config.
Variable e : Env.

Let token_url : string := "https://www.strava.com/oauth/token".

(** C6. The link callback answers 403 to a denial and, when there is no
    denial, 400 when [code], [scope] or [state] is missing, both without
    calling any collaborator. With the three parameters present and a
    [state] that parses: a token exchange that fails gives 400 and writes
    nothing; an exchange that returns the athlete id (an integer, whose
    printed form is a valid document id), the tokens and the expiry gives
    500 when the write to the users collection fails, with the collection
    as it was, and otherwise 200 after a merge-write under the athlete id.
    The record stored by that write holds the [state] as address, the
    athlete id, the returned tokens and expiry (as they are, when they are
    not maps), the current time as [linkedAt], and keeps every other field
    that was stored under the id. *)
Theorem link_callback (request : Request) (w : World) :
  let data := query request in
  (data !! "error" = Some (JStr "access_denied") ->
     link createFromRawAddress stravaConf e request w
       = (Ret (mkResponse 403 StatusMessage), w))
  /\ (data !! "error" <> Some (JStr "access_denied") ->
      data !! "code" = None \/ data !! "scope" = None \/ data !! "state" = None ->
      link createFromRawAddress stravaConf e request w
        = (Ret (mkResponse 400 StatusMessage), w))
  /\ (data !! "error" <> Some (JStr "access_denied") ->
      is_Some (data !! "code") -> is_Some (data !! "scope") ->
      address_parses createFromRawAddress (data !! "state") = true ->
      (http e = None ->
         link createFromRawAddress stravaConf e request w
           = (Ret (mkResponse 400 StatusMessage),
              mkWorld (users w) (rewards w) (faults w)
                (calls w ++ [HttpPost token_url])%list))
      /\ (forall (fs afs : list (string * jsval)) (athlete : Z)
                 (access_token refresh_token expires_at : jsval),
            http e = Some (Some (JObj fs)) ->
            own_property fs "athlete" = Some (JObj afs) ->
            own_property afs "id" = Some (JNum athlete) ->
            own_property fs "access_token" = Some access_token ->
            own_property fs "refresh_token" = Some refresh_token ->
            own_property fs "expires_at" = Some expires_at ->
            let key := template (Some (JNum athlete)) in
            let old := default ∅ (users w !! key) in
            let log :=
              (calls w ++ [HttpPost token_url] ++ [DocSet Users key])%list in
            valid_document_id key = true
            /\ exists record : obj,
                 record !! "address" = data !! "state"
                 /\ record !! "athleteId" = Some (JNum athlete)
                 /\ holds_written record old "accessToken" access_token
                 /\ holds_written record old "refreshToken" refresh_token
                 /\ holds_written record old "accessExpiresAt" expires_at
                 /\ record !! "linkedAt" = Some (JNum (nowMillis e))
                 /\ (forall k : string,
                       k ∉ link_field_names -> record !! k = old !! k)
                 /\ link createFromRawAddress stravaConf e request w =
                      match faults w with
                      | true :: rest =>
                          (Ret (mkResponse 500 StatusMessage),
                           mkWorld (users w) (rewards w) rest log)
                      | schedule =>
                          (Ret (mkResponse 200 StatusMessage),
                           mkWorld (<[key := record]> (users w))
                             (rewards w) (tail schedule) log)
                      end)).
Proof.
  intros data. split; [| split].
  - intros Hden. unfold link. fold data. unfold has_key.
    rewrite Hden. simpl. reflexivity.
  - intros Hden Hmiss. unfold link. fold data.
    apply strict_eq_str_false in Hden. rewrite Hden, andb_false_r.
    destruct Hmiss as [H | [H | H]]; apply has_key_false in H; rewrite H; simpl;
      rewrite ?orb_true_r; reflexivity.
  - intros Hden Hcode Hscope Hparse.
    assert (Hhead : link createFromRawAddress stravaConf e request =
      catch
        (do! res_data <- axios_post e "https://www.strava.com/oauth/token"
               [ ("client_id", client_id stravaConf);
                 ("client_secret", client_secret stravaConf);
                 ("code", template (data !! "code"));
                 ("grant_type", "authorization_code") ];
         do! athlete <- member res_data "athlete";
         do! athlete_id <- member athlete "id";
         do! access_token <- member res_data "access_token";
         do! refresh_token <- member res_data "refresh_token";
         do! expires_at <- member res_data "expires_at";
         do! d <- validate_document
                    (link_fields e (data !! "state") athlete_id access_token
                       refresh_token expires_at);
         catch
           (do! _ <- commit_merge Users (template athlete_id) d;
            sendStatus 200)
           (fun reason => sendStatus 500))
        (fun reason => sendStatus 400)).
    { unfold link. fold data.
      apply strict_eq_str_false in Hden. rewrite Hden, andb_false_r.
      apply has_key_true in Hcode, Hscope. rewrite Hcode, Hscope.
      rewrite (address_parses_has_key _ _ _ Hparse), Hparse. reflexivity. }
    rewrite Hhead. split.
    + intros Hhttp. unfold catch, bind, axios_post, log_call. rewrite Hhttp.
      reflexivity.
    + intros fs afs athlete access_token refresh_token expires_at
        Hhttp Hath Hid Hat Hrt Hex key old log.
      split; [apply valid_document_id_number |].
      destruct (data !! "state") as [[| | |state| |]|] eqn:Hstate;
        try discriminate Hparse.
      destruct (document_of_link_fields e (JStr state) (JNum athlete) access_token
                  refresh_token expires_at)
        as (d & Hd & _).
      destruct (linked_record e (JStr state) (JNum athlete) access_token
                  refresh_token expires_at d old Hd)
        as ([_ Haddress] & [_ Hathlete] & Hw1 & Hw2 & Hw3 & Hlinked & Hkept).
      exists (merge_document d old).
      split; [by apply Haddress |]. split; [by apply Hathlete |].
      repeat (split; [assumption |]).
      unfold catch at 1. unfold bind at 1. unfold axios_post, bind at 1.
      unfold log_call. rewrite Hhttp.
      unfold ret at 1. cbv beta iota.
      unfold bind, member. rewrite Hath. unfold ret at 1. cbv beta iota.
      rewrite Hid. unfold ret at 1. cbv beta iota.
      rewrite Hat, Hrt, Hex. unfold ret at 1 2 3. cbv beta iota.
      unfold validate_document. rewrite Hd. unfold ret at 1. cbv beta iota.
      unfold catch. rewrite commit_merge_eq. cbn [faults users rewards calls].
      subst log key old. rewrite <- app_assoc.
      destruct (faults w) as [|[|] rest]; reflexivity.
Qed.

End LinkCallback.

(** ** The [isProcessed] flag *)

Section Frame.

Context {A B : Type}.

Lemma keeps_ret (a : A) : keeps_rewards (ret a).
Proof. intros w. reflexivity. Qed.

Lemma keeps_throw (reason : string) : keeps_rewards (@throw A reason).
Proof. intros w. reflexivity. Qed.

Lemma keeps_bind (m : M A) (k : A -> M B) :
  keeps_rewards m -> (forall a, keeps_rewards (k a)) -> keeps_rewards (bind m k).
Proof.
  intros Hm Hk w. unfold bind. specialize (Hm w).
  destruct (m w) as [[a | reason] w1]; simpl in *; [| exact Hm].
  by rewrite Hk.
Qed.

Lemma keeps_catch (m : M A) (h : string -> M A) :
  keeps_rewards m -> (forall reason, keeps_rewards (h reason)) ->
  keeps_rewards (catch m h).
Proof.
  intros Hm Hh w. unfold catch. specialize (Hm w).
  destruct (m w) as [[a | reason] w1]; simpl in *; [exact Hm |].
  by rewrite Hh.
Qed.

End Frame.

Lemma keeps_firestore_call (c : Call) : keeps_rewards (firestore_call c).
Proof. intros w. rewrite firestore_call_eq. by destruct (faults w) as [|[|] fs]. Qed.

Lemma keeps_doc_get (c : Collection) (id : string) : keeps_rewards (doc_get c id).
Proof. intros w. rewrite doc_get_eq. by destruct (faults w) as [|[|] fs]. Qed.

Lemma keeps_query_get (q : Query) : keeps_rewards (query_get q).
Proof. intros w. rewrite query_get_eq. by destruct (faults w) as [|[|] fs]. Qed.

Lemma keeps_where_eq (c : Collection) (field : string) (v : option jsval) :
  keeps_rewards (where_eq c field v).
Proof. intros w. by destruct v. Qed.

Lemma keeps_commit_users (id : string) (d : obj) :
  keeps_rewards (commit_merge Users id d).
Proof. intros w. rewrite commit_merge_eq. by destruct (faults w) as [|[|] fs]. Qed.

Lemma keeps_axios_post (e : Env) (url : string) (payload : list (string * string)) :
  keeps_rewards (axios_post e url payload).
Proof. intros w. unfold axios_post, bind, log_call. simpl. by destruct (http e). Qed.

Lemma keeps_member (o : option jsval) (k : string) : keeps_rewards (member o k).
Proof. intros w. by destruct o as [[]|]. Qed.

Lemma keeps_validate_document (fields : list (string * option jsval)) :
  keeps_rewards (validate_document fields).
Proof. intros w. unfold validate_document. by destruct (document_of fields). Qed.

Lemma keeps_sendStatus (code : Z) : keeps_rewards (sendStatus code).
Proof. apply keeps_ret. Qed.

Lemma keeps_send (code : Z) (s : string) : keeps_rewards (send code s).
Proof. apply keeps_ret. Qed.

Create HintDb frame.
#[local] Hint Resolve keeps_ret keeps_throw keeps_firestore_call keeps_doc_get
  keeps_query_get keeps_where_eq keeps_commit_users keeps_axios_post keeps_member
  keeps_validate_document keeps_sendStatus keeps_send : frame.

(** Walks down a handler: binds and catches by the frame lemmas, branches by
    cases. *)
Ltac frame :=
  repeat first
    [ progress auto with frame
    | apply keeps_bind; [| intros ?]
    | apply keeps_catch; [| intros ?]
    | match goal with
      | |- keeps_rewards (if ?b then _ else _) => destruct b
      | |- keeps_rewards (let _ := _ in _) => cbv zeta
      end ].

Section Flag.

Variable createFromRawAddress : string -> bool.
Variable encodeURIComponent : string -> string.
Variable stravaConf : Config.

Lemma keeps_authorize (request : Request) :
  keeps_rewards (authorize createFromRawAddress encodeURIComponent stravaConf request).
Proof. unfold authorize. frame. Qed.

Lemma keeps_link (e : Env) (request : Request) :
  keeps_rewards (link createFromRawAddress stravaConf e request).
Proof. unfold link. frame. Qed.

Lemma keeps_status (request : Request) :
  keeps_rewards (status createFromRawAddress request).
Proof. unfold status. frame. Qed.

Lemma keeps_subscribe (e : Env) (request : Request) :
  keeps_rewards (subscribe stravaConf e request).
Proof. unfold subscribe. frame. Qed.

(** The sweep reads the unprocessed entries and writes nothing. *)
Lemma keeps_payout : keeps_rewards payout.
Proof. unfold payout. frame. Qed.

Lemma keeps_webhookSubscriptionHandler (request : Request) :
  keeps_rewards (webhookSubscriptionHandler stravaConf request).
Proof. unfold webhookSubscriptionHandler. frame. Qed.

End Flag.

Lemma entries_kept_refl (w : World) : entries_kept w w.
Proof. intros id. destruct (rewards w !! id); auto. Qed.

Lemma entries_kept_same (w w' : World) : rewards w' = rewards w -> entries_kept w w'.
Proof. intros H id. rewrite H. destruct (rewards w !! id); auto. Qed.

Lemma entries_kept_trans (w1 w2 w3 : World) :
  entries_kept w1 w2 -> entries_kept w2 w3 -> entries_kept w1 w3.
Proof.
  intros H12 H23 id. specialize (H12 id). specialize (H23 id).
  destruct (rewards w1 !! id) as [d|].
  - by rewrite H12 in H23.
  - destruct H12 as [H12 | (d & H12 & Hd)]; rewrite H12 in H23; eauto.
Qed.

Lemma keeps_rewards_entries {A : Type} (m : M A) (w : World) :
  keeps_rewards m -> entries_kept w (m w).2.
Proof. intros H. apply entries_kept_same, H. Qed.

(** The event handler adds at most one entry, unprocessed, and touches no
    other. *)
Lemma webhookEventHandler_entries (e : Env) (request : Request) (w : World) :
  entries_kept w (webhookEventHandler e request w).2.
Proof.
  unfold webhookEventHandler.
  destruct (negb (has_key "object_type" (body request))
            || negb (has_key "object_id" (body request))
            || negb (has_key "aspect_type" (body request))
            || negb (has_key "owner_id" (body request))) eqn:Hshape;
    [apply entries_kept_refl |].
  destruct (negb (strict_eq_str (body request !! "object_type") "activity")
            || negb (strict_eq_str (body request !! "aspect_type") "create"));
    [apply entries_kept_refl |].
  unfold catch.
  pose proof (webhookEventTry_outcome e (body request) w) as Hout.
  destruct (webhookEventTry e (body request) w) as [r w1]. simpl in Hout.
  inversion Hout; subst; simpl; try by apply entries_kept_same.
  intros id. match goal with H : rewards w1 = _ |- _ => rewrite H end.
  destruct (decide (id = rewardsId (formattedDate e) (u !! "athleteId"))) as [-> | Hne].
  - match goal with H : rewards w !! _ = None |- _ => rewrite H end.
    right. exists d. rewrite lookup_insert_eq. split; [reflexivity |].
    apply orb_false_iff in Hshape as [Hshape _].
    apply orb_false_iff in Hshape as [Hshape _].
    apply orb_false_iff in Hshape as [_ Hoid].
    apply negb_false_iff, has_key_true in Hoid. destruct Hoid as [activityId Hoid].
    match goal with H : document_of _ = Some d |- _ => rename H into Hd end.
    rewrite Hoid in Hd.
    destruct (u !! "address") as [address|]; [| discriminate Hd].
    destruct (u !! "athleteId") as [athleteId|]; [| discriminate Hd].
    destruct (document_of_reward_fields e address athleteId activityId)
      as (d' & Hd' & _ & _ & _ & Hproc & _).
    congruence.
  - rewrite lookup_insert_ne by done. destruct (rewards w !! id); auto.
Qed.

Section FlagRuns.

Variable createFromRawAddress : string -> bool.
Variable encodeURIComponent : string -> string.
Variable stravaConf : Config.

Lemma webhook_entries (e : Env) (request : Request) (w : World) :
  entries_kept w (webhook stravaConf e request w).2.
Proof.
  unfold webhook.
  destruct (String.eqb (method request) "GET").
  - apply keeps_rewards_entries, keeps_webhookSubscriptionHandler.
  - destruct (String.eqb (method request) "POST").
    + apply webhookEventHandler_entries.
    + apply entries_kept_refl.
Qed.

Lemma bind_some_entries (m : M Response) (w : World) :
  entries_kept w (m w).2 ->
  entries_kept w ((do! r <- m; ret (Some r)) w).2.
Proof. unfold bind, ret. by destruct (m w) as [[r | reason] w']. Qed.

Lemma invoke_entries (i : Invocation) (w : World) :
  entries_kept w (invoke createFromRawAddress encodeURIComponent stravaConf i w).2.
Proof.
  unfold invoke. destruct (target i).
  - apply bind_some_entries, keeps_rewards_entries, keeps_authorize.
  - apply bind_some_entries, keeps_rewards_entries, keeps_link.
  - apply bind_some_entries, entries_kept_refl.
  - apply bind_some_entries, webhook_entries.
  - apply bind_some_entries, keeps_rewards_entries, keeps_status.
  - apply bind_some_entries, keeps_rewards_entries, keeps_subscribe.
  - apply bind_some_entries, entries_kept_refl.
  - apply keeps_rewards_entries. apply keeps_bind; [apply keeps_payout |].
    intros _. apply keeps_ret.
Qed.

(** Whatever is invoked, in whatever order: entries are only added, and
    added unprocessed. *)
Lemma run_entries (invocations : list Invocation) (w : World) :
  entries_kept w (run createFromRawAddress encodeURIComponent stravaConf invocations w).
Proof.
  revert w. induction invocations as [|i rest IH]; intros w; simpl.
  - apply entries_kept_refl.
  - eapply entries_kept_trans; [apply invoke_entries | apply IH].
Qed.

(** C9 (what the code does). An entry whose [isProcessed] is false keeps it
    false through every sequence of invocations, runs of the payout sweep
    included: the sweep only reads, and nothing else writes an existing
    entry. *)
Theorem unprocessed_entry_stays_unprocessed (invocations : list Invocation)
    (w : World) (id : string) :
  isProcessed w id = Some (JBool false) ->
  isProcessed (run createFromRawAddress encodeURIComponent stravaConf invocations w) id
    = Some (JBool false).
Proof.
  unfold isProcessed. intros H.
  pose proof (run_entries invocations w id) as Hkept.
  destruct (rewards w !! id) as [d|]; [| discriminate H].
  by rewrite Hkept.
Qed.

End FlagRuns.

(** * The statements at sample inputs *)

Lemma webhook_subscription_verification_witness :
  method verification_request = "GET"
  /\ webhook sample_conf sample_env verification_request empty_world =
       (Ret (mkResponse 200
               (JsonObject
                  [("hub.challenge", Some (JStr "15f7d1a91c1f40f8a748fd134752feb3"))])),
        empty_world).
Proof.
  split; [reflexivity |].
  destruct (webhook_subscription_verification sample_conf sample_env
              verification_request empty_world eq_refl) as (_ & _ & Hok).
  apply Hok; reflexivity.
Defined.

Lemma webhook_verification_without_challenge_witness :
  query verification_request_without_challenge !! "hub.challenge" = None
  /\ webhook sample_conf sample_env verification_request_without_challenge empty_world =
       (Ret (mkResponse 200 (JsonObject [("hub.challenge", None)])), empty_world).
Proof.
  split; [reflexivity |].
  apply (webhook_verification_without_challenge sample_conf sample_env
           verification_request_without_challenge empty_world); reflexivity.
Defined.

Lemma activity_event_shape (activity : Z) :
  passes_shape_check (body (activity_event activity)).
Proof. repeat split; eexists; reflexivity. Defined.

Lemma webhook_post_swallows_exceptions_witness :
  exists w' : World,
    webhook sample_conf sample_env (activity_event 1001) failing_write_world =
      (Ret (mkResponse 200 (Text "EVENT_IGNORED")), w')
    /\ rewards w' = rewards failing_write_world.
Proof.
  destruct (webhook_post_swallows_exceptions sample_conf sample_env
              (activity_event 1001) failing_write_world eq_refl
              (activity_event_shape 1001))
    as (r & w' & Hweb & _ & _ & Hthrow).
  exists w'.
  pose (t := webhookEventTry sample_env (body (activity_event 1001))
               failing_write_world).
  assert (Ht : t = (Throw "firestore: call failed", t.2))
    by (vm_compute; reflexivity).
  destruct (Hthrow _ _ Ht) as (Hr & _ & Hrewards).
  rewrite Hweb, Hr. split; [reflexivity | exact Hrewards].
Defined.

Lemma webhook_post_ignored_classes_witness :
  exists w' : World,
    webhook sample_conf sample_env (activity_event 1001) empty_world =
      (Ret (mkResponse 200 (Text "EVENT_IGNORED")), w')
    /\ users w' = users empty_world /\ rewards w' = rewards empty_world
    /\ writes (calls w') = writes (calls empty_world).
Proof.
  apply (webhook_post_ignored_classes sample_conf sample_env (activity_event 1001)
           empty_world eq_refl (activity_event_shape 1001)).
  right. right. reflexivity.
Defined.

Lemma idempotent_reward_creation_witness :
  exists (rs : list (result Response)) (w' : World),
    deliver sample_conf
      [ (sample_env, activity_event 1001); (sample_env, activity_event 1002);
        (sample_env, activity_event 1003) ] linked_world
      = (Ret (mkResponse 200 (Text "EVENT_RECEIVED")) :: rs, w')
    /\ is_Some (rewards w' !! "20211103-42")
    /\ Forall (fun r => r = Ret (mkResponse 200 (Text "EVENT_IGNORED"))) rs.
Proof.
  destruct (idempotent_reward_creation sample_conf "20211103" (JNum 42) sample_user
              (sample_env, activity_event 1001)
              [ (sample_env, activity_event 1002); (sample_env, activity_event 1003) ]
              linked_world)
    as (r1 & w1 & rs & w' & _ & Hrun & _ & _ & Hsome & Hrs & _ & _ & Hfirst).
  - constructor.
  - reflexivity.
  - exists 42; reflexivity.
  - reflexivity.
  - eexists; reflexivity.
  - exists 42; reflexivity.
  - repeat (apply Forall_cons; split);
      [ | | | apply Forall_nil ];
      (repeat split; try reflexivity; eexists; reflexivity).
  - destruct Hfirst as (-> & _). exists rs, w'. auto.
Defined.

(** C1 (as stated) fails when a call to the store fails. Athlete 42 is
    linked and has no entry for the day; the write of the first event fails
    and the failure is swallowed: the event is answered [EVENT_IGNORED] and
    no entry exists after it. The second event of the same day then finds
    no entry, writes one and is answered [EVENT_RECEIVED]. *)
Lemma idempotent_reward_creation_counterexample :
  let events := [ (sample_env, activity_event 1001);
                  (sample_env, activity_event 1002) ] in
  Forall (activity_created_on "20211103" (JNum 42)) events
  /\ users failing_write_world !! "42" = Some sample_user
  /\ rewards failing_write_world !! "20211103-42" = None
  /\ (webhook sample_conf sample_env (activity_event 1001) failing_write_world).1
     = Ret (mkResponse 200 (Text "EVENT_IGNORED"))
  /\ rewards (webhook sample_conf sample_env (activity_event 1001)
                failing_write_world).2 !! "20211103-42" = None
  /\ (deliver sample_conf events failing_write_world).1
     = [ Ret (mkResponse 200 (Text "EVENT_IGNORED"));
         Ret (mkResponse 200 (Text "EVENT_RECEIVED")) ]
  /\ writes (calls (deliver sample_conf events failing_write_world).2) = 2%nat.
Proof.
  intros events. split.
  { repeat (apply Forall_cons; split); [ | | apply Forall_nil ];
      (repeat split; try reflexivity; eexists; reflexivity). }
  split; [reflexivity |]. split; [reflexivity |].
  repeat split; vm_compute; reflexivity.
Qed.

Lemma status_linked_address_answers_404_witness :
  exists w' : World,
    status sample_parser status_request linked_world =
      (Ret (mkResponse 404 StatusMessage), w').
Proof.
  apply (status_linked_address_answers_404 sample_parser status_request linked_world).
  - reflexivity.
  - reflexivity.
  - exists "42", sample_user. split; reflexivity.
  - discriminate.
Defined.

Lemma unprocessed_entry_stays_unprocessed_witness :
  isProcessed rewarded_world "20211103-42" = Some (JBool false)
  /\ isProcessed (run sample_parser (fun s => s) sample_conf [sweep; sweep] rewarded_world)
       "20211103-42" = Some (JBool false).
Proof.
  split; [reflexivity |].
  apply (unprocessed_entry_stays_unprocessed sample_parser (fun s => s) sample_conf
           [sweep; sweep] rewarded_world "20211103-42").
  reflexivity.
Defined.

(** C5 (as stated) fails: a status request that is not a GET, and a link
    callback that reports a denial, are answered 403 although their address
    parameter is missing. *)
Lemma address_gate_counterexample :
  address_parses sample_parser (query (mkRequest "POST" ∅ ∅) !! "dhealth.address") = false
  /\ status sample_parser (mkRequest "POST" ∅ ∅) empty_world
     = (Ret (mkResponse 403 StatusMessage), empty_world)
  /\ address_parses sample_parser (query denied_request !! "state") = false
  /\ link sample_parser sample_conf sample_env denied_request empty_world
     = (Ret (mkResponse 403 StatusMessage), empty_world).
Proof. repeat split. Qed.

Lemma address_gate_witness :
  address_parses sample_parser (Some (JStr "not-an-address")) = false
  /\ status sample_parser
       (mkRequest "GET" {[ "dhealth.address" := JStr "not-an-address" ]} ∅) linked_world
     = (Ret (mkResponse 400 StatusMessage), linked_world)
  /\ link sample_parser sample_conf sample_env
       (mkRequest "GET"
          {[ "code" := JStr "abc"; "scope" := JStr "activity:read";
             "state" := JStr "not-an-address" ]} ∅) linked_world
     = (Ret (mkResponse 400 StatusMessage), linked_world).
Proof.
  split; [reflexivity |]. split.
  - destruct (address_gate sample_parser (fun s => s) sample_conf sample_env
                (mkRequest "GET" {[ "dhealth.address" := JStr "not-an-address" ]} ∅)
                linked_world) as [Haddress _].
    destruct (Haddress eq_refl) as [_ Hstatus]. exact Hstatus.
  - destruct (address_gate sample_parser (fun s => s) sample_conf sample_env
                (mkRequest "GET"
                   {[ "code" := JStr "abc"; "scope" := JStr "activity:read";
                      "state" := JStr "not-an-address" ]} ∅)
                linked_world) as [_ Hstate].
    exact (Hstate eq_refl).
Defined.

(** The example of the link flow: code ["abc"], scope ["activity:read"], the
    address as state, and an exchange that returns athlete 42 with tokens
    ["t"], ["r"] and expiry 123; athlete 42 was linked before, to another
    address, and the stored record carries a nickname. *)
Lemma link_callback_witness :
  exists (record : obj) (w' : World),
    users earlier_linked_world !! "42" = Some earlier_user
    /\ link sample_parser sample_conf sample_env link_request earlier_linked_world
      = (Ret (mkResponse 200 StatusMessage), w')
    /\ users w' = <["42" := record]> (users earlier_linked_world)
    /\ record !! "athleteId" = Some (JNum 42)
    /\ record !! "address" = Some (JStr sample_address)
    /\ record !! "accessToken" = Some (JStr "t")
    /\ record !! "refreshToken" = Some (JStr "r")
    /\ record !! "accessExpiresAt" = Some (JNum 123)
    /\ record !! "linkedAt" = Some (JNum 1635934500000)
    /\ record !! "nickname" = Some (JStr "ada").
Proof.
  destruct (link_callback sample_parser sample_conf sample_env link_request
              earlier_linked_world) as (_ & _ & Hvalid).
  destruct Hvalid as [_ Hok];
    [discriminate | eexists; reflexivity | eexists; reflexivity | reflexivity |].
  destruct (Hok [ ("athlete", JObj [("id", JNum 42)]);
                  ("access_token", JStr "t");
                  ("refresh_token", JStr "r");
                  ("expires_at", JNum 123) ]
                [("id", JNum 42)] 42 (JStr "t") (JStr "r") (JNum 123)
                eq_refl eq_refl eq_refl eq_refl eq_refl eq_refl)
    as (_ & record & Ha & Hi & [_ Hat] & [_ Hrt] & [_ Hex] & Hl & Hkept & Hlink).
  exists record. eexists. split; [reflexivity |].
  split; [exact Hlink |]. split; [reflexivity |].
  split; [exact Hi |]. split; [exact Ha |].
  split; [apply Hat; discriminate |].
  split; [apply Hrt; discriminate |].
  split; [apply Hex; discriminate |].
  split; [exact Hl |].
  rewrite Hkept; [reflexivity |].
  intros Hin. unfold link_field_names in Hin.
  repeat (apply elem_of_cons in Hin as [Hin | Hin]; [discriminate |]).
  by apply elem_of_nil in Hin.
Defined.

(** * Further properties of the cloud functions *)

(** ** Relations that every handler step respects *)

Section Steps.

Variable R : World -> World -> Prop.
Hypothesis R_refl : forall w, R w w.
Hypothesis R_trans : forall w1 w2 w3, R w1 w2 -> R w2 w3 -> R w1 w3.

(** [R] does not look at the fault schedule or at the log. *)
Hypothesis R_bookkeeping :
  forall w fs cs, R w (mkWorld (users w) (rewards w) fs cs).

Lemma steps_ret {A : Type} (a : A) : steps R (ret a).
Proof. intros w. apply R_refl. Qed.

Lemma steps_throw {A : Type} (reason : string) : steps R (@throw A reason).
Proof. intros w. apply R_refl. Qed.

Lemma steps_bind {A B : Type} (m : M A) (k : A -> M B) :
  steps R m -> (forall a, steps R (k a)) -> steps R (bind m k).
Proof.
  intros Hm Hk w. unfold bind. specialize (Hm w).
  destruct (m w) as [[a | reason] w1]; simpl in *; [| exact Hm].
  eapply R_trans; [exact Hm | apply Hk].
Qed.

Lemma steps_catch {A : Type} (m : M A) (h : string -> M A) :
  steps R m -> (forall reason, steps R (h reason)) -> steps R (catch m h).
Proof.
  intros Hm Hh w. unfold catch. specialize (Hm w).
  destruct (m w) as [[a | reason] w1]; simpl in *; [exact Hm |].
  eapply R_trans; [exact Hm | apply Hh].
Qed.

Lemma steps_firestore_call (c : Call) : steps R (firestore_call c).
Proof.
  intros w. rewrite firestore_call_eq.
  destruct (faults w) as [|[|] fs]; apply R_bookkeeping.
Qed.

Lemma steps_doc_get (c : Collection) (id : string) : steps R (doc_get c id).
Proof.
  intros w. rewrite doc_get_eq.
  destruct (faults w) as [|[|] fs]; apply R_bookkeeping.
Qed.

Lemma steps_query_get (q : Query) : steps R (query_get q).
Proof.
  intros w. rewrite query_get_eq.
  destruct (faults w) as [|[|] fs]; apply R_bookkeeping.
Qed.

Lemma steps_where_eq (c : Collection) (field : string) (v : option jsval) :
  steps R (where_eq c field v).
Proof. intros w. destruct v; apply R_refl. Qed.

Lemma steps_axios_post (e : Env) (url : string) (payload : list (string * string)) :
  steps R (axios_post e url payload).
Proof.
  intros w. unfold axios_post, bind, log_call. simpl.
  destruct (http e); apply R_bookkeeping.
Qed.

Lemma steps_member (o : option jsval) (k : string) : steps R (member o k).
Proof. intros w. destruct o as [[]|]; apply R_refl. Qed.

Lemma steps_snap_data (s : Snapshot) : steps R (snap_data s).
Proof. intros w. destruct s as [[d|]|]; apply R_refl. Qed.

Lemma steps_validate_document (fields : list (string * option jsval)) :
  steps R (validate_document fields).
Proof.
  intros w. unfold validate_document. destruct (document_of fields); apply R_refl.
Qed.

Lemma steps_sendStatus (code : Z) : steps R (sendStatus code).
Proof. apply steps_ret. Qed.

Lemma steps_send (code : Z) (s : string) : steps R (send code s).
Proof. apply steps_ret. Qed.

(** A merge-write is a step when the write itself is one. *)
Lemma steps_commit_merge (c : Collection) (id : string) (d : obj) :
  (forall w,
     R w (set_collection c
            (<[id := merge_document d (default ∅ (collection c w !! id))]>
               (collection c w)) w)) ->
  steps R (commit_merge c id d).
Proof.
  intros Hwrite w. rewrite commit_merge_eq.
  destruct (faults w) as [|[|] fs]; try apply R_bookkeeping.
  - eapply R_trans; [apply (R_bookkeeping w [] (calls w ++ [DocSet c id])) |].
    destruct c; apply Hwrite.
  - eapply R_trans; [apply (R_bookkeeping w fs (calls w ++ [DocSet c id])) |].
    destruct c; apply Hwrite.
Qed.

End Steps.

(** Walks down a handler, one frame lemma per construct. *)
Ltac walk :=
  repeat first
    [ assumption
    | match goal with
      | |- steps _ (if ?b then _ else _) => destruct b
      | |- steps _ (let _ := _ in _) => cbv zeta
      | |- steps _ (bind _ _) => apply steps_bind; [assumption | | intros ?]
      | |- steps _ (catch _ _) => apply steps_catch; [assumption | | intros ?]
      | |- steps _ (ret _) => apply steps_ret; assumption
      | |- steps _ (sendStatus _) => apply steps_sendStatus; assumption
      | |- steps _ (send _ _) => apply steps_send; assumption
      | |- steps _ (doc_get _ _) => apply steps_doc_get; assumption
      | |- steps _ (query_get _) => apply steps_query_get; assumption
      | |- steps _ (where_eq _ _ _) => apply steps_where_eq; assumption
      | |- steps _ (axios_post _ _ _) => apply steps_axios_post; assumption
      | |- steps _ (member _ _) => apply steps_member; assumption
      | |- steps _ (snap_data _) => apply steps_snap_data; assumption
      | |- steps _ (validate_document _) => apply steps_validate_document; assumption
      | |- steps _ (doc_set_merge _ _ _) => unfold doc_set_merge
      | H : forall id d, steps _ (commit_merge ?c id d)
        |- steps _ (commit_merge ?c _ _) => apply H
      end ].

Section HandlerSteps.

Variable R : World -> World -> Prop.
Hypothesis R_refl : forall w, R w w.
Hypothesis R_trans : forall w1 w2 w3, R w1 w2 -> R w2 w3 -> R w1 w3.
Hypothesis R_bookkeeping :
  forall w fs cs, R w (mkWorld (users w) (rewards w) fs cs).
Hypothesis R_write_users : forall id d, steps R (commit_merge Users id d).
Hypothesis R_write_rewards : forall id d, steps R (commit_merge Rewards id d).

Variable createFromRawAddress : string -> bool.
Variable encodeURIComponent : string -> string.
Variable stravaConf : Config.

Lemma steps_authorize (request : Request) :
  steps R (authorize createFromRawAddress encodeURIComponent stravaConf request).
Proof. unfold authorize. walk. Qed.

Lemma steps_link (e : Env) (request : Request) :
  steps R (link createFromRawAddress stravaConf e request).
Proof. unfold link. walk. Qed.

Lemma steps_webhook (e : Env) (request : Request) :
  steps R (webhook stravaConf e request).
Proof.
  unfold webhook, webhookSubscriptionHandler, webhookEventHandler, webhookEventTry.
  walk.
Qed.

Lemma steps_status (request : Request) :
  steps R (status createFromRawAddress request).
Proof. unfold status. walk. Qed.

Lemma steps_subscribe (e : Env) (request : Request) :
  steps R (subscribe stravaConf e request).
Proof. unfold subscribe. walk. Qed.

Lemma steps_payout : steps R payout.
Proof. unfold payout. walk. Qed.

(** Every function but [link] is a step even when a write to the users
    collection is not. *)
Lemma steps_invoke_but_link (i : Invocation) :
  target i <> Link ->
  steps R (invoke createFromRawAddress encodeURIComponent stravaConf i).
Proof.
  intros Htarget. unfold invoke, unlink, unsubscribe.
  destruct (target i); try congruence; walk;
    first [ apply steps_authorize | apply steps_webhook | apply steps_status
          | apply steps_subscribe | apply steps_payout ].
Qed.

Lemma steps_invoke (i : Invocation) :
  steps R (invoke createFromRawAddress encodeURIComponent stravaConf i).
Proof.
  destruct (target i) eqn:Htarget;
    try (apply steps_invoke_but_link; congruence).
  unfold invoke. rewrite Htarget. walk. apply steps_link.
Qed.

Lemma steps_run (invocations : list Invocation) (w : World) :
  R w (run createFromRawAddress encodeURIComponent stravaConf invocations w).
Proof.
  revert w. induction invocations as [|i rest IH]; intros w; simpl.
  - apply R_refl.
  - eapply R_trans; [apply steps_invoke | apply IH].
Qed.

Lemma steps_run_but_link (invocations : list Invocation) (w : World) :
  Forall (fun i => target i <> Link) invocations ->
  R w (run createFromRawAddress encodeURIComponent stravaConf invocations w).
Proof.
  intros Hall. revert w.
  induction Hall as [|i rest Hi Hall IH]; intros w; simpl.
  - apply R_refl.
  - eapply R_trans; [by apply steps_invoke_but_link | apply IH].
Qed.

End HandlerSteps.

(** ** Who writes what *)

Section Writers.

Variable createFromRawAddress : string -> bool.
Variable encodeURIComponent : string -> string.
Variable stravaConf : Config.

Lemma keeps_invoke_but_webhook (i : Invocation) :
  target i <> Webhook ->
  keeps_rewards (invoke createFromRawAddress encodeURIComponent stravaConf i).
Proof.
  intros Htarget. unfold invoke, unlink, unsubscribe.
  destruct (target i); try congruence;
    (apply keeps_bind; [| intros ?; apply keeps_ret]);
    first [ apply keeps_authorize | apply keeps_link | apply keeps_status
          | apply keeps_subscribe | apply keeps_payout | apply keeps_sendStatus ].
Qed.

(** X1. Each collection has one writer: a sequence of invocations without a
    link callback leaves the users collection as it was, and a sequence
    without a webhook call leaves the rewards collection as it was. *)
Theorem collections_have_one_writer (invocations : list Invocation) (w : World) :
  (Forall (fun i => target i <> Link) invocations ->
     users (run createFromRawAddress encodeURIComponent stravaConf invocations w)
       = users w)
  /\ (Forall (fun i => target i <> Webhook) invocations ->
      rewards (run createFromRawAddress encodeURIComponent stravaConf invocations w)
        = rewards w).
Proof.
  split.
  - intros Hall.
    apply (steps_run_but_link (fun w w' => users w' = users w)); try done.
    + intros w1 w2 w3 H12 H23. congruence.
    + intros id d w0. rewrite commit_merge_eq.
      by destruct (faults w0) as [|[|] fs].
  - intros Hall. revert w.
    induction Hall as [|i rest Hi Hall IH]; intros w; simpl; [reflexivity |].
    rewrite IH. by apply keeps_invoke_but_webhook.
Qed.

(** X2. No invocation removes a document: whatever is invoked, a user record
    or rewards entry that exists before exists afterwards. *)
Theorem documents_are_never_deleted (invocations : list Invocation) (w : World)
    (id : string) :
  let w' := run createFromRawAddress encodeURIComponent stravaConf invocations w in
  (is_Some (users w !! id) -> is_Some (users w' !! id))
  /\ (is_Some (rewards w !! id) -> is_Some (rewards w' !! id)).
Proof.
  apply (steps_run
           (fun w w' =>
              (is_Some (users w !! id) -> is_Some (users w' !! id))
              /\ (is_Some (rewards w !! id) -> is_Some (rewards w' !! id)))).
  - done.
  - intros w1 w2 w3 [Hu12 Hr12] [Hu23 Hr23]. split; auto.
  - done.
  - intros id0 d. apply steps_commit_merge; [| done |].
    + intros w1 w2 w3 [Hu12 Hr12] [Hu23 Hr23]. split; auto.
    + intros w0. simpl. split; [| done].
      intros Hsome. apply lookup_insert_is_Some'. auto.
  - intros id0 d. apply steps_commit_merge; [| done |].
    + intros w1 w2 w3 [Hu12 Hr12] [Hu23 Hr23]. split; auto.
    + intros w0. simpl. split; [done |].
      intros Hsome. apply lookup_insert_is_Some'. auto.
Qed.

End Writers.

(** ** How many collaborator calls an invocation makes *)

Lemma writes_app (l1 l2 : list Call) :
  writes (l1 ++ l2) = (writes l1 + writes l2)%nat.
Proof. unfold writes. by rewrite List.filter_app, length_app. Qed.

Section CallCounts.

Context {A B : Type}.

Lemma makes_ret (n k : nat) (a : A) : makes_calls n k (ret a).
Proof.
  intros w. exists []. simpl. rewrite app_nil_r.
  split; [reflexivity | split; unfold writes; simpl; lia].
Qed.

Lemma makes_throw (n k : nat) (reason : string) : makes_calls n k (@throw A reason).
Proof.
  intros w. exists []. simpl. rewrite app_nil_r.
  split; [reflexivity | split; unfold writes; simpl; lia].
Qed.

Lemma makes_bind (n1 k1 n2 k2 : nat) (m : M A) (f : A -> M B) :
  makes_calls n1 k1 m -> (forall a, makes_calls n2 k2 (f a)) ->
  makes_calls (n1 + n2) (k1 + k2) (bind m f).
Proof.
  intros Hm Hf w. unfold bind. destruct (Hm w) as (l1 & Hl1 & Hn1 & Hk1).
  destruct (m w) as [[a | reason] w1]; simpl in *.
  - destruct (Hf a w1) as (l2 & Hl2 & Hn2 & Hk2).
    exists (l1 ++ l2)%list.
    rewrite Hl2, Hl1, <- app_assoc, length_app, writes_app.
    repeat split; lia.
  - exists l1. split; [done | split; lia].
Qed.

Lemma makes_catch (n k : nat) (m : M A) (h : string -> M A) :
  makes_calls n k m -> (forall reason, makes_calls 0 0 (h reason)) ->
  makes_calls n k (catch m h).
Proof.
  intros Hm Hh w. unfold catch. destruct (Hm w) as (l1 & Hl1 & Hn1 & Hk1).
  destruct (m w) as [[a | reason] w1]; simpl in *.
  - exists l1. auto.
  - destruct (Hh reason w1) as (l2 & Hl2 & Hn2 & Hk2).
    exists (l1 ++ l2)%list.
    rewrite Hl2, Hl1, <- app_assoc, length_app, writes_app.
    repeat split; lia.
Qed.

End CallCounts.

Lemma makes_doc_get (c : Collection) (id : string) : makes_calls 1 0 (doc_get c id).
Proof.
  intros w. exists [DocGet c id]. rewrite doc_get_eq.
  destruct (faults w) as [|[|] fs]; simpl; auto.
Qed.

Lemma makes_query_get (q : Query) : makes_calls 1 0 (query_get q).
Proof.
  intros w. exists [QueryGet (q_collection q) (q_field q)]. rewrite query_get_eq.
  destruct (faults w) as [|[|] fs]; simpl; auto.
Qed.

Lemma makes_commit_merge (c : Collection) (id : string) (d : obj) :
  makes_calls 1 1 (commit_merge c id d).
Proof.
  intros w. exists [DocSet c id]. rewrite commit_merge_eq.
  destruct (faults w) as [|[|] fs]; destruct c; simpl; auto.
Qed.

Lemma makes_axios_post (e : Env) (url : string) (payload : list (string * string)) :
  makes_calls 1 0 (axios_post e url payload).
Proof.
  intros w. exists [HttpPost url]. unfold axios_post, bind, log_call. simpl.
  destruct (http e); simpl; auto.
Qed.

Lemma makes_where_eq (c : Collection) (field : string) (v : option jsval) :
  makes_calls 0 0 (where_eq c field v).
Proof. destruct v; [apply makes_ret | apply makes_throw]. Qed.

Lemma makes_member (o : option jsval) (k : string) : makes_calls 0 0 (member o k).
Proof. destruct o as [[]|]; first [apply makes_ret | apply makes_throw]. Qed.

Lemma makes_snap_data (s : Snapshot) : makes_calls 0 0 (snap_data s).
Proof. destruct s as [[d|]|]; first [apply makes_ret | apply makes_throw]. Qed.

Lemma makes_validate_document (fields : list (string * option jsval)) :
  makes_calls 0 0 (validate_document fields).
Proof.
  unfold validate_document.
  destruct (document_of fields); [apply makes_ret | apply makes_throw].
Qed.

Lemma makes_doc_set_merge (c : Collection) (id : string)
    (fields : list (string * option jsval)) :
  makes_calls 1 1 (doc_set_merge c id fields).
Proof.
  unfold doc_set_merge.
  apply (makes_bind 0 0 1 1); [apply makes_validate_document |].
  intros d. apply makes_commit_merge.
Qed.

(** Spends the budget of a handler along its text: a call for each read or
    HTTP post, a call and a write for each merge-write. *)
Ltac spend :=
  repeat first
    [ match goal with
      | |- makes_calls _ _ (if ?b then _ else _) => destruct b
      | |- makes_calls _ _ (let _ := _ in _) => cbv zeta
      | |- makes_calls _ _ (ret _) => apply makes_ret
      | |- makes_calls _ _ (sendStatus _) => apply makes_ret
      | |- makes_calls _ _ (send _ _) => apply makes_ret
      | |- makes_calls _ _ (catch _ _) =>
          apply makes_catch; [| intros ?; apply makes_ret]
      | |- makes_calls _ _ (bind (doc_get _ _) _) =>
          apply (makes_bind 1 0); [apply makes_doc_get | intros ?]
      | |- makes_calls _ _ (bind (query_get _) _) =>
          apply (makes_bind 1 0); [apply makes_query_get | intros ?]
      | |- makes_calls _ _ (bind (axios_post _ _ _) _) =>
          apply (makes_bind 1 0); [apply makes_axios_post | intros ?]
      | |- makes_calls _ _ (bind (commit_merge _ _ _) _) =>
          apply (makes_bind 1 1); [apply makes_commit_merge | intros ?]
      | |- makes_calls _ _ (bind (doc_set_merge _ _ _) _) =>
          apply (makes_bind 1 1); [apply makes_doc_set_merge | intros ?]
      | |- makes_calls _ _ (bind (where_eq _ _ _) _) =>
          apply (makes_bind 0 0); [apply makes_where_eq | intros ?]
      | |- makes_calls _ _ (bind (member _ _) _) =>
          apply (makes_bind 0 0); [apply makes_member | intros ?]
      | |- makes_calls _ _ (bind (snap_data _) _) =>
          apply (makes_bind 0 0); [apply makes_snap_data | intros ?]
      | |- makes_calls _ _ (bind (validate_document _) _) =>
          apply (makes_bind 0 0); [apply makes_validate_document | intros ?]
      end ].

Section CallBudget.

Variable createFromRawAddress : string -> bool.
Variable encodeURIComponent : string -> string.
Variable stravaConf : Config.

Lemma makes_webhook (e : Env) (request : Request) :
  makes_calls 3 1 (webhook stravaConf e request).
Proof.
  unfold webhook, webhookSubscriptionHandler, webhookEventHandler, webhookEventTry.
  spend.
Qed.

Lemma makes_link (e : Env) (request : Request) :
  makes_calls 2 1 (link createFromRawAddress stravaConf e request).
Proof. unfold link. spend. Qed.

Lemma makes_status (request : Request) :
  makes_calls 1 0 (status createFromRawAddress request).
Proof. unfold status. spend. Qed.

Lemma makes_subscribe (e : Env) (request : Request) :
  makes_calls 1 0 (subscribe stravaConf e request).
Proof. unfold subscribe. spend. Qed.

Lemma makes_payout : makes_calls 1 0 payout.
Proof.
  unfold payout. spend.
  all: apply (makes_bind 1 0 0 0); [apply makes_query_get | intros ?; spend].
Qed.

Lemma makes_authorize (request : Request) :
  makes_calls 0 0
    (authorize createFromRawAddress encodeURIComponent stravaConf request).
Proof. unfold authorize. spend. Qed.

(** X3. One invocation calls its collaborators a bounded number of times:
    [authorize], [unlink] and [unsubscribe] never; [status], [subscribe] and
    the sweep at most once and without any write; [link] at most twice and
    the webhook at most three times, each with at most one write. *)
Theorem invocation_call_budget (i : Invocation) (w : World) :
  exists l : list Call,
    calls (invoke createFromRawAddress encodeURIComponent stravaConf i w).2
      = (calls w ++ l)%list
    /\ (length l <= (call_budget (target i)).1)%nat
    /\ (writes l <= (call_budget (target i)).2)%nat.
Proof.
  revert w. change (makes_calls (call_budget (target i)).1 (call_budget (target i)).2
                      (invoke createFromRawAddress encodeURIComponent stravaConf i)).
  unfold invoke, unlink, unsubscribe. destruct (target i); simpl.
  - apply (makes_bind 0 0 0 0); [apply makes_authorize | intros ?; apply makes_ret].
  - apply (makes_bind 2 1 0 0); [apply makes_link | intros ?; apply makes_ret].
  - apply (makes_bind 0 0 0 0); [apply makes_ret | intros ?; apply makes_ret].
  - apply (makes_bind 3 1 0 0); [apply makes_webhook | intros ?; apply makes_ret].
  - apply (makes_bind 1 0 0 0); [apply makes_status | intros ?; apply makes_ret].
  - apply (makes_bind 1 0 0 0); [apply makes_subscribe | intros ?; apply makes_ret].
  - apply (makes_bind 0 0 0 0); [apply makes_ret | intros ?; apply makes_ret].
  - apply (makes_bind 1 0 0 0); [apply makes_payout | intros ?; apply makes_ret].
Qed.

End CallBudget.

(** ** Every request is answered *)

Lemma returns_in_ret (codes : list Z) (r : Response) :
  statusCode r ∈ codes -> returns_in codes (ret r).
Proof. intros Hin w r' w' [= <- _]. exact Hin. Qed.

Lemma returns_in_bind {A : Type} (codes : list Z) (m : M A) (k : A -> M Response) :
  (forall a, returns_in codes (k a)) -> returns_in codes (bind m k).
Proof.
  intros Hk w r w'. unfold bind.
  destruct (m w) as [[a | reason] w1]; [apply Hk | discriminate].
Qed.

Lemma returns_in_catch (codes : list Z) (m : M Response) (h : string -> M Response) :
  returns_in codes m -> (forall reason, returns_in codes (h reason)) ->
  returns_in codes (catch m h).
Proof.
  intros Hm Hh w r w'. unfold catch. specialize (Hm w).
  destruct (m w) as [[a | reason] w1].
  - intros [= <- <-]. by eapply Hm.
  - apply Hh.
Qed.

Lemma answers_in_ret (codes : list Z) (r : Response) :
  statusCode r ∈ codes -> answers_in codes (ret r).
Proof. intros Hin w. by exists r, w. Qed.

(** A [catch] whose handler answers makes the whole answer. *)
Lemma answers_in_catch (codes : list Z) (m : M Response) (h : string -> M Response) :
  returns_in codes m -> (forall reason, answers_in codes (h reason)) ->
  answers_in codes (catch m h).
Proof.
  intros Hm Hh w. unfold catch. specialize (Hm w).
  destruct (m w) as [[r | reason] w1].
  - exists r, w1. split; [reflexivity | by eapply Hm].
  - apply Hh.
Qed.

Lemma answers_in_bind_ret {A : Type} (codes : list Z) (a : A) (k : A -> M Response) :
  answers_in codes (k a) -> answers_in codes (bind (ret a) k).
Proof. intros Hk w. apply Hk. Qed.

Lemma answers_in_returns (codes : list Z) (m : M Response) :
  answers_in codes m -> returns_in codes m.
Proof.
  intros Hm w r w' Heq. destruct (Hm w) as (r0 & w0 & Heq0 & Hin).
  rewrite Heq in Heq0. by injection Heq0 as <- <-.
Qed.

Ltac code_listed := simpl; repeat first [apply list_elem_of_here | apply list_elem_of_further].

(** Follows a handler to its answers. *)
Ltac answer :=
  repeat first
    [ match goal with
      | |- answers_in _ (if ?b then _ else _) => destruct b
      | |- returns_in _ (if ?b then _ else _) => destruct b
      | |- answers_in _ (let _ := _ in _) => cbv zeta
      | |- returns_in _ (let _ := _ in _) => cbv zeta
      | |- answers_in _ (sendStatus _) => apply answers_in_ret; code_listed
      | |- answers_in _ (send _ _) => apply answers_in_ret; code_listed
      | |- answers_in _ (ret _) => apply answers_in_ret; code_listed
      | |- returns_in _ (sendStatus _) => apply returns_in_ret; code_listed
      | |- returns_in _ (send _ _) => apply returns_in_ret; code_listed
      | |- returns_in _ (ret _) => apply returns_in_ret; code_listed
      | |- answers_in _ (catch _ _) => apply answers_in_catch; [| intros ?]
      | |- returns_in _ (catch _ _) => apply returns_in_catch; [| intros ?]
      | |- returns_in _ (bind _ _) => apply returns_in_bind; intros ?
      | |- answers_in _ (bind (ret _) _) => apply answers_in_bind_ret
      end ].

Section Answers.

Variable createFromRawAddress : string -> bool.
Variable encodeURIComponent : string -> string.
Variable stravaConf : Config.

Lemma answers_authorize (request : Request) :
  answers_in (codes_of Authorize)
    (authorize createFromRawAddress encodeURIComponent stravaConf request).
Proof. unfold authorize. answer. Qed.

Lemma answers_link (e : Env) (request : Request) :
  answers_in (codes_of Link) (link createFromRawAddress stravaConf e request).
Proof. unfold link. answer. Qed.

Lemma answers_webhook (e : Env) (request : Request) :
  answers_in (codes_of Webhook) (webhook stravaConf e request).
Proof.
  unfold webhook, webhookSubscriptionHandler, webhookEventHandler, webhookEventTry,
    doc_set_merge.
  answer.
Qed.

Lemma answers_status (request : Request) :
  answers_in (codes_of Status) (status createFromRawAddress request).
Proof.
  unfold status.
  destruct (negb (String.eqb (method request) "GET")); [answer |].
  cbv zeta. unfold has_key.
  destruct (query request !! "dhealth.address") as [address|]; simpl; answer.
Qed.

Lemma answers_subscribe (e : Env) (request : Request) :
  answers_in (codes_of Subscribe) (subscribe stravaConf e request).
Proof. unfold subscribe. answer. Qed.

(** X4. Every HTTP function answers every request whose body is an object,
    whatever the store and the network do: no exception leaves the handler,
    and the status code is one of those written in it. The only request
    that is left without an answer is a POST to the webhook whose body is a
    string: the first test of the event handler throws before its [try],
    with the world untouched; with any other method a string body is not
    read and the request is answered. *)
Theorem every_request_is_answered (i : Invocation) (w : World) :
  target i <> Payout ->
  (exists (r : Response) (w' : World),
     invoke createFromRawAddress encodeURIComponent stravaConf i w
       = (Ret (Some r), w')
     /\ statusCode r ∈ codes_of (target i))
  /\ (forall (e : Env) (query : obj) (text : string),
        exists reason : string,
          webhook_raw stravaConf e "POST" query (TextBody text) w
            = (Throw reason, w))
  /\ (forall (e : Env) (method : string) (query : obj) (text : string),
        method <> "POST" ->
        exists r : Response,
          webhook_raw stravaConf e method query (TextBody text) w = (Ret r, w)
          /\ statusCode r ∈ codes_of Webhook)
  /\ (forall (e : Env) (request : Request),
        webhook_raw stravaConf e (method request) (query request)
          (ObjectBody (body request)) w
        = webhook stravaConf e request w).
Proof.
  intros Htarget. split; [| split; [| split]].
  - unfold invoke, bind.
    destruct (target i); try congruence.
    + destruct (answers_authorize (request_of i) w) as (r & w' & -> & Hin). eauto.
    + destruct (answers_link (environment i) (request_of i) w)
        as (r & w' & -> & Hin). eauto.
    + eexists _, _. split; [reflexivity | code_listed].
    + destruct (answers_webhook (environment i) (request_of i) w)
        as (r & w' & -> & Hin). eauto.
    + destruct (answers_status (request_of i) w) as (r & w' & -> & Hin). eauto.
    + destruct (answers_subscribe (environment i) (request_of i) w)
        as (r & w' & -> & Hin). eauto.
    + eexists _, _. split; [reflexivity | code_listed].
  - intros e query text. eexists. reflexivity.
  - intros e method query text Hmethod. unfold webhook_raw.
    destruct (String.eqb method "GET") eqn:Hget.
    + unfold webhookSubscriptionHandler, sendStatus, ret. cbv zeta.
      repeat match goal with |- context [if ?b then _ else _] => destruct b end;
        eexists; (split; [reflexivity | code_listed]).
    + apply String.eqb_neq in Hmethod. rewrite Hmethod.
      eexists. split; [reflexivity | code_listed].
  - intros e request. by destruct request.
Qed.

End Answers.

(** ** The webhook outside event ingestion, the sweep, the status query *)

Section QuietPaths.

Variable createFromRawAddress : string -> bool.
Variable stravaConf : Config.
Variable e : Env.

(** X5. The webhook goes to the store only for a POST that carries the four
    event fields with [object_type] ["activity"] and [aspect_type]
    ["create"]: any other request with an object body, of any method, is
    answered at once, with one of the webhook's status codes and never with
    [EVENT_RECEIVED], and leaves the world as it was: no collaborator is
    called. A request with a string body leaves the world as it was too. *)
Theorem webhook_is_quiet_unless_activity_creation (request : Request) (w : World) :
  is_activity_creation request = false ->
  (exists r : Response,
     webhook stravaConf e request w = (Ret r, w)
     /\ statusCode r ∈ codes_of Webhook
     /\ r <> mkResponse 200 (Text "EVENT_RECEIVED"))
  /\ (forall text : string,
        (webhook_raw stravaConf e (method request) (query request)
           (TextBody text) w).2 = w).
Proof.
  intros Hquiet. split.
  - revert Hquiet.
    unfold is_activity_creation, webhook, webhookSubscriptionHandler,
      webhookEventHandler, sendStatus, send, ret.
    destruct (String.eqb (method request) "GET").
    + intros _. cbv zeta.
      repeat match goal with |- context [if ?b then _ else _] => destruct b end;
        eexists; (split; [reflexivity | split; [code_listed | discriminate]]).
    + destruct (String.eqb (method request) "POST");
        [| intros _; eexists; split; [reflexivity | split; [code_listed | discriminate]]].
      cbv zeta. simpl.
      destruct (has_key "object_type" (body request));
        [| intros _; eexists; split; [reflexivity | split; [code_listed | discriminate]]].
      destruct (has_key "object_id" (body request));
        [| intros _; eexists; split; [reflexivity | split; [code_listed | discriminate]]].
      destruct (has_key "aspect_type" (body request));
        [| intros _; eexists; split; [reflexivity | split; [code_listed | discriminate]]].
      destruct (has_key "owner_id" (body request));
        [| intros _; eexists; split; [reflexivity | split; [code_listed | discriminate]]].
      simpl.
      destruct (strict_eq_str (body request !! "object_type") "activity");
        [| intros _; eexists; split; [reflexivity | split; [code_listed | discriminate]]].
      destruct (strict_eq_str (body request !! "aspect_type") "create");
        [discriminate
        | intros _; eexists; split; [reflexivity | split; [code_listed | discriminate]]].
  - intros text. unfold webhook_raw, webhookSubscriptionHandler, sendStatus, ret.
    cbv zeta.
    repeat match goal with |- context [if ?b then _ else _] => destruct b end;
      reflexivity.
Qed.

(** What the query of the sweep selects. *)
Lemma matches_unprocessed (d : obj) :
  matches (mkQuery Rewards "isProcessed" (JBool false)) d = true
  <-> d !! "isProcessed" = Some (JBool false).
Proof.
  unfold matches. cbn [q_field q_value].
  destruct (d !! "isProcessed") as [[|[|]| | | |]|]; simpl; split;
    first [done | discriminate | intros [= ?]; done].
Qed.

(** X6. The sweep only reads: it sends one query, which asks the rewards
    collection for the entries whose [isProcessed] is false and, when it
    succeeds, gets exactly those; it does nothing with them, leaves both
    collections as they were, returns normally whether the query finds
    entries or not, and fails exactly when the query fails. *)
Theorem payout_only_reads (w : World) :
  let unprocessed := mkQuery Rewards "isProcessed" (JBool false) in
  payout w = bind (query_get unprocessed) (fun _ => ret tt) w
  /\ (head (faults w) <> Some true ->
      exists (docs : list (string * obj)) (w' : World),
        query_get unprocessed w = (Ret (QuerySnapshot docs), w')
        /\ forall (id : string) (d : obj),
             (id, d) ∈ docs
             <-> rewards w !! id = Some d
                 /\ d !! "isProcessed" = Some (JBool false))
  /\ users (payout w).2 = users w
  /\ rewards (payout w).2 = rewards w
  /\ calls (payout w).2 = (calls w ++ [QueryGet Rewards "isProcessed"])%list
  /\ (head (faults w) <> Some true -> (payout w).1 = Ret tt)
  /\ (head (faults w) = Some true -> exists reason, (payout w).1 = Throw reason).
Proof.
  clear createFromRawAddress stravaConf e.
  intros unprocessed. split; [| split].
  - unfold payout, where_eq, bind, ret. fold unprocessed.
    destruct (query_get unprocessed w) as [[snapshot | reason] w1];
      [| reflexivity].
    by destruct (truthy (snap_empty snapshot)).
  - intros Hok. rewrite query_get_eq.
    destruct (faults w) as [|[|] fs]; simpl in Hok; try congruence;
      eexists _, _; (split; [reflexivity |]); intros id d;
      cbn [collection q_collection unprocessed users rewards];
      rewrite list_elem_of_filter, elem_of_map_to_list; cbn [snd];
      pose proof (matches_unprocessed d); subst unprocessed; tauto.
  - unfold payout, where_eq, bind, ret. rewrite query_get_eq.
    destruct (faults w) as [|[|] fs]; simpl;
      try match goal with |- context [if ?b then _ else _] => destruct b end;
      simpl; repeat split; try done; eauto.
Qed.

(** X7. A GET status request with an address that parses is answered 500
    exactly when the query on the users collection fails; either way the
    handler sends that one query and leaves both collections as they
    were. *)
Theorem status_500_iff_query_fails (request : Request) (w : World) :
  method request = "GET" ->
  address_parses createFromRawAddress (query request !! "dhealth.address") = true ->
  exists (r : Response) (w' : World),
    status createFromRawAddress request w = (Ret r, w')
    /\ (statusCode r = 500 <-> head (faults w) = Some true)
    /\ users w' = users w /\ rewards w' = rewards w
    /\ calls w' = (calls w ++ [QueryGet Users "address"])%list.
Proof.
  intros Hget Hparse. rewrite (status_query_eq _ request w Hget Hparse).
  destruct (faults w) as [|[|] fs]; eexists _, _; (split; [reflexivity |]);
    simpl; repeat split; try done; try lia.
Qed.

End QuietPaths.

(** ** What a link callback leaves behind *)

Ltac refuse :=
  apply link_refused;
    [ reflexivity | reflexivity
    | first [ by exists 0%nat | by exists 1%nat ]
    | auto ].

Section LinkOutcome.

Variable createFromRawAddress : string -> bool.
Variable stravaConf : Config.
Variable e : Env.

Lemma link_outcome_holds (request : Request) (w : World) :
  link_outcome e request w
    (link createFromRawAddress stravaConf e request w).1
    (link createFromRawAddress stravaConf e request w).2.
Proof.
  unfold link. cbv zeta.
  destruct (has_key "error" (query request)
            && strict_eq_str (query request !! "error") "access_denied");
    [refuse |].
  destruct (negb (has_key "code" (query request))
            || negb (has_key "scope" (query request))
            || negb (has_key "state" (query request))); [refuse |].
  destruct (query request !! "state") as [[| | |state| |]|] eqn:Hstate;
    unfold address_parses; cbn [negb]; try refuse.
  destruct (createFromRawAddress state); cbn [negb]; [| refuse].
  unfold catch, bind, axios_post, log_call, member, ret, throw, sendStatus,
    validate_document.
  destruct (http e) as [data|]; simpl; [| refuse].
  destruct data as [[| | | | |fs]|]; simpl; try refuse.
  destruct (own_property fs "athlete") as [[| | | | |afs]|]; simpl; try refuse.
  all: match goal with
       | |- context [document_of ?f] => destruct (document_of f) as [d|] eqn:Hd
       end; simpl; try refuse.
  all: apply document_of_link_fields_inv in Hd as Hfields;
    destruct Hfields as (_ & [athlete_id Hid] & [access_token Hat]
                         & [refresh_token Hrt] & [expires_at Hex]);
    try discriminate Hid.
  rewrite commit_merge_eq. simpl.
  rewrite Hid, Hat, Hrt, Hex in Hd. rewrite Hid.
  destruct (faults w) as [|[|] rest] eqn:Hf; simpl.
  - eapply link_written; eauto. solve_suffix Hf.
  - apply link_refused; [reflexivity | reflexivity | solve_suffix Hf | auto].
  - eapply link_written; eauto. solve_suffix Hf.
Qed.
End LinkOutcome.

Section AfterLink.

Variable createFromRawAddress : string -> bool.
Variable stravaConf : Config.
Variable e : Env.

(** The exchange answer and the write behind an answer 200 of the link
    callback. *)
Lemma link_200_inv (request : Request) (w : World) (r : Response) (w' : World) :
  link createFromRawAddress stravaConf e request w = (Ret r, w') ->
  statusCode r = 200 ->
  exists (state : string) (fs afs : list (string * jsval))
         (athlete_id access_token refresh_token expires_at : jsval) (d : obj),
    query request !! "state" = Some (JStr state)
    /\ http e = Some (Some (JObj fs))
    /\ own_property fs "athlete" = Some (JObj afs)
    /\ own_property afs "id" = Some athlete_id
    /\ own_property fs "access_token" = Some access_token
    /\ own_property fs "refresh_token" = Some refresh_token
    /\ own_property fs "expires_at" = Some expires_at
    /\ document_of
         (link_fields e (Some (JStr state)) (Some athlete_id) (Some access_token)
            (Some refresh_token) (Some expires_at)) = Some d
    /\ users w' =
         <[template (Some athlete_id) :=
             merge_document d (default ∅ (users w !! template (Some athlete_id)))]>
           (users w).
Proof.
  unfold link. cbv zeta.
  destruct (has_key "error" (query request)
            && strict_eq_str (query request !! "error") "access_denied");
    [intros [= <- _]; discriminate |].
  destruct (negb (has_key "code" (query request))
            || negb (has_key "scope" (query request))
            || negb (has_key "state" (query request)));
    [intros [= <- _]; discriminate |].
  destruct (query request !! "state") as [[| | |state| |]|] eqn:Hstate;
    unfold address_parses; cbn [negb];
    try (intros [= <- _]; discriminate).
  destruct (createFromRawAddress state); cbn [negb];
    [| intros [= <- _]; discriminate].
  unfold catch, bind, axios_post, log_call, member, ret, throw, sendStatus,
    validate_document.
  destruct (http e) as [data|] eqn:Hhttp; simpl;
    [| intros [= <- _]; discriminate].
  destruct data as [[| | | | |fs]|]; simpl;
    try (intros [= <- _]; discriminate).
  destruct (own_property fs "athlete") as [[| | | | |afs]|] eqn:Hath; simpl;
    try (intros [= <- _]; discriminate).
  all: match goal with
       | |- context [document_of ?f] => destruct (document_of f) as [d|] eqn:Hd
       end; simpl; try (intros [= <- _]; discriminate).
  all: apply document_of_link_fields_inv in Hd as Hfields;
    destruct Hfields as (_ & [athlete_id Hid] & [access_token Hat]
                         & [refresh_token Hrt] & [expires_at Hex]);
    try discriminate Hid.
  rewrite commit_merge_eq. simpl.
  rewrite Hid, Hat, Hrt, Hex in Hd. rewrite Hid.
  destruct (faults w) as [|[|] rest] eqn:Hf; simpl;
    intros [= <- <-]; try discriminate; intros _;
    exists state, fs, afs, athlete_id, access_token, refresh_token, expires_at, d;
    auto 10.
Qed.

(** X8. What an answer of the link callback means for the users collection.
    After a 200 the exchange had returned an athlete id, both tokens and
    the expiry, and the record stored under the printed athlete id holds
    the [state] as address, the time of the call as [linkedAt], and that
    athlete id, those tokens and that expiry (as they are, when they are not
    maps), next to the other fields that were stored under the id. After
    any other answer the users collection is as it was. The rewards
    collection is never touched. *)
Theorem link_200_iff_record_written (request : Request) (w : World)
    (r : Response) (w' : World) :
  link createFromRawAddress stravaConf e request w = (Ret r, w') ->
  rewards w' = rewards w
  /\ (statusCode r <> 200 -> users w' = users w)
  /\ (statusCode r = 200 ->
      exists (state : string) (fs afs : list (string * jsval))
             (athlete_id access_token refresh_token expires_at : jsval)
             (record : obj),
        let old := default ∅ (users w !! template (Some athlete_id)) in
        query request !! "state" = Some (JStr state)
        /\ http e = Some (Some (JObj fs))
        /\ own_property fs "athlete" = Some (JObj afs)
        /\ own_property afs "id" = Some athlete_id
        /\ own_property fs "access_token" = Some access_token
        /\ own_property fs "refresh_token" = Some refresh_token
        /\ own_property fs "expires_at" = Some expires_at
        /\ users w' = <[template (Some athlete_id) := record]> (users w)
        /\ users w' !! template (record !! "athleteId") = Some record
        /\ record !! "address" = Some (JStr state)
        /\ record !! "linkedAt" = Some (JNum (nowMillis e))
        /\ holds_written record old "athleteId" athlete_id
        /\ holds_written record old "accessToken" access_token
        /\ holds_written record old "refreshToken" refresh_token
        /\ holds_written record old "accessExpiresAt" expires_at
        /\ (forall k : string,
              k ∉ link_field_names -> record !! k = old !! k)).
Proof.
  intros Hlink.
  pose proof (link_outcome_holds createFromRawAddress stravaConf e request w)
    as Hout.
  rewrite Hlink in Hout. simpl in Hout.
  split; [| split].
  - by inversion Hout.
  - inversion Hout as [code w0 Hu Hr _ Hcode | state aid at_ rt ex d w0 Hstate Hd Hu Hr _];
      subst; done.
  - intros H200.
    destruct (link_200_inv request w r w' Hlink H200)
      as (state & fs & afs & aid & at_ & rt & ex & d & Hstate & Hhttp & Hath & Hid
          & Hat & Hrt & Hex & Hd & Hu).
    set (old := default ∅ (users w !! template (Some aid))) in *.
    destruct (linked_record e (JStr state) aid at_ rt ex d old Hd)
      as ([_ Haddress] & Hathlete & Hw1 & Hw2 & Hw3 & Hlinked & Hkept).
    assert (Hkey : template (merge_document d old !! "athleteId")
                   = template (Some aid)).
    { destruct Hathlete as [-> _]. unfold stored_value.
      destruct (old !! "athleteId"); simpl;
        [apply js_to_string_merge_value | done]. }
    exists state, fs, afs, aid, at_, rt, ex, (merge_document d old).
    cbv zeta. fold old.
    do 7 (split; [assumption |]).
    split; [exact Hu |].
    split; [by rewrite Hkey, Hu, lookup_insert_eq |].
    split; [by apply Haddress |].
    auto 10.
Qed.

(** X9. The link callback changes at most one user record, and in that
    record only the six fields it writes: every other stored field of every
    record is kept, so linking again keeps what else was stored. *)
Theorem link_keeps_other_fields (request : Request) (w : World)
    (id k : string) (d : obj) :
  users w !! id = Some d ->
  k ∉ link_field_names ->
  exists d' : obj,
    users (link createFromRawAddress stravaConf e request w).2 !! id = Some d'
    /\ d' !! k = d !! k.
Proof.
  intros Hid Hk.
  pose proof (link_outcome_holds createFromRawAddress stravaConf e request w)
    as Hout.
  inversion Hout as [code w0 Hu _ _ _ | state aid at_ rt ex d0 w0 _ Hd Hu _ _].
  - exists d. by rewrite Hu.
  - rewrite Hu.
    destruct (decide (template (Some aid) = id)) as [<- | Hne].
    + rewrite lookup_insert_eq, Hid. simpl. eexists. split; [reflexivity |].
      rewrite merge_document_lookup, (link_fields_other _ _ _ _ _ _ _ _ Hd Hk).
      reflexivity.
    + rewrite lookup_insert_ne by done. eauto.
Qed.

End AfterLink.

(** ** What an answer of the event handler means *)

Section AfterEvent.

Variable stravaConf : Config.
Variable e : Env.

(** Outside event ingestion the webhook answers at once, and never with
    [EVENT_RECEIVED]. *)
Lemma webhook_quiet_answer (request : Request) (w : World) :
  is_activity_creation request = false ->
  exists r : Response,
    webhook stravaConf e request w = (Ret r, w)
    /\ r <> mkResponse 200 (Text "EVENT_RECEIVED").
Proof.
  unfold is_activity_creation, webhook, webhookSubscriptionHandler,
    webhookEventHandler, sendStatus, send, ret.
  destruct (String.eqb (method request) "GET").
  - intros _. cbv zeta.
    repeat match goal with |- context [if ?b then _ else _] => destruct b end;
      eexists; (split; [reflexivity | discriminate]).
  - destruct (String.eqb (method request) "POST");
      [| intros _; eexists; split; [reflexivity | discriminate]].
    cbv zeta. simpl.
    destruct (has_key "object_type" (body request));
      [| intros _; eexists; split; [reflexivity | discriminate]].
    destruct (has_key "object_id" (body request));
      [| intros _; eexists; split; [reflexivity | discriminate]].
    destruct (has_key "aspect_type" (body request));
      [| intros _; eexists; split; [reflexivity | discriminate]].
    destruct (has_key "owner_id" (body request));
      [| intros _; eexists; split; [reflexivity | discriminate]].
    simpl.
    destruct (strict_eq_str (body request !! "object_type") "activity");
      [| intros _; eexists; split; [reflexivity | discriminate]].
    destruct (strict_eq_str (body request !! "aspect_type") "create");
      [discriminate | intros _; eexists; split; [reflexivity | discriminate]].
Qed.

(** The webhook either leaves both collections alone or has run the [try]
    block to the creation of an entry. *)
Lemma webhook_cases (request : Request) (w : World) :
  let r := (webhook stravaConf e request w).1 in
  let w' := (webhook stravaConf e request w).2 in
  (users w' = users w /\ rewards w' = rewards w
   /\ r <> Ret (mkResponse 200 (Text "EVENT_RECEIVED")))
  \/ (method request = "POST"
      /\ r = Ret (mkResponse 200 (Text "EVENT_RECEIVED"))
      /\ try_outcome e (body request) w r w').
Proof.
  destruct (is_activity_creation request) eqn:Hact.
  - unfold is_activity_creation in Hact.
    repeat (apply andb_true_iff in Hact as [Hact ?]).
    apply String.eqb_eq in Hact as Hpost.
    unfold webhook, webhookEventHandler.
    assert (Hget : String.eqb (method request) "GET" = false)
      by (by rewrite Hpost).
    rewrite Hget, Hact. cbv zeta.
    repeat match goal with H : _ = true |- _ => rewrite H; clear H end.
    cbn [negb orb]. unfold catch.
    pose proof (webhookEventTry_outcome e (body request) w) as Hout.
    destruct (webhookEventTry e (body request) w) as [r w1]. simpl in Hout.
    inversion Hout; subst; simpl.
    + left. repeat split; try done.
    + left. repeat split; try done.
    + left. repeat split; try done.
    + right. repeat split; done.
  - left. destruct (webhook_quiet_answer request w Hact) as (r & -> & Hr).
    simpl. repeat split. congruence.
Qed.

End AfterEvent.

Lemma document_of_reward_fields_inv (e : Env)
    (address athleteId activityId : option jsval) (d : obj) :
  document_of (reward_fields e address athleteId activityId) = Some d ->
  d !! "address" = address /\ d !! "athleteId" = athleteId
  /\ d !! "activityId" = activityId
  /\ is_Some address /\ is_Some athleteId /\ is_Some activityId
  /\ d !! "isProcessed" = Some (JBool false)
  /\ d !! "isConfirmed" = Some (JBool false)
  /\ d !! "rewardDay" = Some (JStr (formattedDate e)).
Proof.
  destruct address as [a|], athleteId as [b|], activityId as [c|];
    try discriminate.
  destruct (document_of_reward_fields e a b c)
    as (d' & Hd' & H1 & H2 & H3 & H4 & H5 & H6).
  intros Hd. rewrite Hd in Hd'. injection Hd' as <-.
  repeat split; eauto.
Qed.

Section EventMeaning.

Variable stravaConf : Config.
Variable e : Env.

(** X10. [EVENT_RECEIVED] is answered only when an entry has been written:
    the request is a POST whose owner has a user record and had no entry for
    the day; exactly that entry is added, under the day and the athlete id
    of the user record, with the address and athlete id of that record, the
    event's [object_id] as activity id and both flags false; the users
    collection is as it was. *)
Theorem event_received_means_entry_created (request : Request) (w w' : World) :
  webhook stravaConf e request w
    = (Ret (mkResponse 200 (Text "EVENT_RECEIVED")), w') ->
  method request = "POST"
  /\ users w' = users w
  /\ exists (u d : obj),
       users w !! template (body request !! "owner_id") = Some u
       /\ rewards w !! rewardsId (formattedDate e) (u !! "athleteId") = None
       /\ rewards w' = <[rewardsId (formattedDate e) (u !! "athleteId") := d]> (rewards w)
       /\ d !! "address" = u !! "address"
       /\ d !! "athleteId" = u !! "athleteId"
       /\ d !! "activityId" = body request !! "object_id"
       /\ d !! "rewardDay" = Some (JStr (formattedDate e))
       /\ d !! "isProcessed" = Some (JBool false)
       /\ d !! "isConfirmed" = Some (JBool false).
Proof.
  intros Hweb.
  destruct (webhook_cases stravaConf e request w) as [(_ & _ & Hno) | (Hpost & _ & Hout)];
    rewrite Hweb in *; simpl in *; [congruence |].
  split; [exact Hpost |].
  inversion Hout as [| | | u d w0 Hu Hr Hd Husers Hrewards _ _]; subst.
  split; [exact Husers |].
  destruct (document_of_reward_fields_inv _ _ _ _ _ Hd)
    as (H1 & H2 & H3 & _ & _ & _ & H4 & H5 & H6).
  exists u, d. repeat split; assumption.
Qed.

End EventMeaning.

(** ** The keys of the two collections *)

Section Keys.

Variable createFromRawAddress : string -> bool.
Variable encodeURIComponent : string -> string.
Variable stravaConf : Config.

Lemma invoke_rewards_keyed (i : Invocation) (w : World) :
  rewards_keyed w ->
  rewards_keyed (invoke createFromRawAddress encodeURIComponent stravaConf i w).2.
Proof.
  intros Hkeyed.
  destruct (decide (target i = Webhook)) as [Htarget | Htarget].
  - unfold invoke. rewrite Htarget. unfold bind.
    pose proof (webhook_cases stravaConf (environment i) (request_of i) w) as Hcases.
    destruct (webhook stravaConf (environment i) (request_of i) w) as [[r | reason] w1];
      simpl in *.
    + destruct Hcases as [(_ & Hr & _) | (_ & Heq & Hout)].
      * intros id d. rewrite Hr. apply Hkeyed.
      * injection Heq as ->.
        inversion Hout as [| | | u d0 w0 Hu Hr Hd Husers Hrewards _ _]; subst.
        destruct (document_of_reward_fields_inv _ _ _ _ _ Hd)
          as (_ & H2 & _ & _ & _ & _ & _ & _ & H6).
        intros id d. rewrite Hrewards.
        destruct (decide (rewardsId (formattedDate (environment i)) (u !! "athleteId") = id))
          as [<- | Hne].
        -- rewrite lookup_insert_eq. intros [= <-].
           exists (formattedDate (environment i)). by rewrite H2.
        -- rewrite lookup_insert_ne by done. apply Hkeyed.
    + destruct Hcases as [(_ & Hr & _) | (_ & Heq & _)]; [| discriminate].
      intros id d. rewrite Hr. apply Hkeyed.
  - intros id d.
    rewrite (keeps_invoke_but_webhook createFromRawAddress encodeURIComponent
               stravaConf i Htarget w).
    apply Hkeyed.
Qed.

(** X11. The rewards collection keeps its keying: when every entry sits
    under the id made of its own [rewardDay] and [athleteId], this is still
    so after any sequence of invocations. *)
Theorem rewards_stay_keyed (invocations : list Invocation) (w : World) :
  rewards_keyed w ->
  rewards_keyed (run createFromRawAddress encodeURIComponent stravaConf invocations w).
Proof.
  revert w. induction invocations as [|i rest IH]; intros w Hkeyed; simpl.
  - exact Hkeyed.
  - apply IH. by apply invoke_rewards_keyed.
Qed.

Lemma invoke_users_keyed (i : Invocation) (w : World) :
  users_keyed w ->
  users_keyed (invoke createFromRawAddress encodeURIComponent stravaConf i w).2.
Proof.
  intros Hkeyed.
  destruct (decide (target i = Link)) as [Htarget | Htarget].
  - unfold invoke. rewrite Htarget. unfold bind.
    pose proof (link_outcome_holds createFromRawAddress stravaConf (environment i)
                  (request_of i) w) as Hout.
    destruct (link createFromRawAddress stravaConf (environment i) (request_of i) w)
      as [[r | reason] w1]; simpl in *.
    + inversion Hout as [code w0 Hu _ _ _ | state aid at_ rt ex d0 w0 _ Hd Hu _ _];
        subst.
      * intros id d. rewrite Hu. apply Hkeyed.
      * destruct (document_of_link_fields (environment i) (JStr state) aid at_ rt ex)
          as (d' & Hd' & _ & Hi & _).
        rewrite Hd in Hd'. injection Hd' as <-.
        intros id d. rewrite Hu.
        destruct (decide (template (Some aid) = id)) as [<- | Hne].
        -- rewrite lookup_insert_eq. intros [= <-].
           rewrite merge_document_lookup, Hi.
           match goal with
           | |- context [match ?x with _ => _ end] => destruct x
           end; [unfold template; by rewrite js_to_string_merge_value | done].
        -- rewrite lookup_insert_ne by done. apply Hkeyed.
    + inversion Hout.
  - intros id d.
    rewrite (steps_invoke_but_link (fun w w' => users w' = users w)); try done.
    + apply Hkeyed.
    + intros w1 w2 w3 H12 H23. congruence.
    + intros id0 d0 w0. rewrite commit_merge_eq.
      by destruct (faults w0) as [|[|] fs].
Qed.

(** X12. The users collection keeps its keying: when every user record sits
    under the printed form of its own [athleteId], this is still so after
    any sequence of invocations, link callbacks included. *)
Theorem users_stay_keyed (invocations : list Invocation) (w : World) :
  users_keyed w ->
  users_keyed (run createFromRawAddress encodeURIComponent stravaConf invocations w).
Proof.
  revert w. induction invocations as [|i rest IH]; intros w Hkeyed; simpl.
  - exact Hkeyed.
  - apply IH. by apply invoke_users_keyed.
Qed.

End Keys.

(** ** From the authorization to the first reward *)

Lemma document_of_link_fields_none (e : Env)
    (address athlete_id access_token refresh_token expires_at : option jsval) :
  athlete_id = None \/ access_token = None \/ refresh_token = None
  \/ expires_at = None ->
  document_of (link_fields e address athlete_id access_token refresh_token expires_at)
    = None.
Proof.
  intros Hnone.
  destruct (document_of (link_fields e address athlete_id access_token
                           refresh_token expires_at)) as [d|] eqn:Hd;
    [| reflexivity].
  apply document_of_link_fields_inv in Hd
    as (_ & [? ->] & [? ->] & [? ->] & [? ->]).
  destruct Hnone as [? | [? | [? | ?]]]; discriminate.
Qed.

Section Exchange.

Variable createFromRawAddress : string -> bool.
Variable stravaConf : Config.
Variable e : Env.

Let token_url : string := "https://www.strava.com/oauth/token".

(** Past its three checks the link callback is the token exchange under its
    [catch]. *)
Lemma link_reaches_eq (request : Request) :
  reaches_exchange createFromRawAddress request = true ->
  link createFromRawAddress stravaConf e request =
    catch
      (do! res_data <- axios_post e "https://www.strava.com/oauth/token"
             [ ("client_id", client_id stravaConf);
               ("client_secret", client_secret stravaConf);
               ("code", template (query request !! "code"));
               ("grant_type", "authorization_code") ];
       do! athlete <- member res_data "athlete";
       do! athlete_id <- member athlete "id";
       do! access_token <- member res_data "access_token";
       do! refresh_token <- member res_data "refresh_token";
       do! expires_at <- member res_data "expires_at";
       do! d <- validate_document
                  (link_fields e (query request !! "state") athlete_id access_token
                     refresh_token expires_at);
       catch
         (do! _ <- commit_merge Users (template athlete_id) d;
          sendStatus 200)
         (fun reason => sendStatus 500))
      (fun reason => sendStatus 400).
Proof.
  unfold reaches_exchange, link. intros Hreach.
  apply andb_true_iff in Hreach as [Hreach Hparse].
  pose proof (address_parses_has_key _ _ _ Hparse) as Hstate.
  repeat (apply andb_true_iff in Hreach as [Hreach ?]).
  apply negb_true_iff in Hreach. rewrite Hreach, andb_false_r.
  repeat match goal with H : _ = true |- _ => rewrite H; clear H end.
  reflexivity.
Qed.

Lemma link_stops_eq (request : Request) (w : World) :
  reaches_exchange createFromRawAddress request = false ->
  exists code : Z,
    link createFromRawAddress stravaConf e request w
      = (Ret (mkResponse code StatusMessage), w)
    /\ (code = 403 \/ code = 400).
Proof.
  unfold reaches_exchange, link, sendStatus, ret. intros Hstop. cbv zeta.
  destruct (strict_eq_str (query request !! "error") "access_denied") eqn:Hden.
  - apply strict_eq_str_true in Hden as Herr. unfold has_key at 1.
    rewrite Herr. simpl. eauto.
  - rewrite andb_false_r. simpl in Hstop.
    destruct (has_key "code" (query request)); simpl; [| eauto].
    destruct (has_key "scope" (query request)); simpl; [| eauto].
    destruct (has_key "state" (query request)); simpl; [| eauto].
    simpl in Hstop. rewrite Hstop. simpl. eauto.
Qed.

(** X13. The link callback posts to the token endpoint exactly when the
    request reports no denial, carries [code] and [scope], and has a [state]
    that parses as an address; the post is then its first collaborator
    call. Otherwise it answers 403 or 400 and the world is as it was. *)
Theorem link_posts_iff_request_is_valid (request : Request) (w : World) :
  (reaches_exchange createFromRawAddress request = true ->
     exists l : list Call,
       calls (link createFromRawAddress stravaConf e request w).2
         = (calls w ++ HttpPost token_url :: l)%list)
  /\ (reaches_exchange createFromRawAddress request = false ->
      exists code : Z,
        link createFromRawAddress stravaConf e request w
          = (Ret (mkResponse code StatusMessage), w)
        /\ (code = 403 \/ code = 400)).
Proof.
  split; [| apply link_stops_eq].
  intros Hreach. rewrite (link_reaches_eq request Hreach).
  unfold catch at 1. unfold bind at 1.
  assert (Hpost : forall payload,
             calls (axios_post e "https://www.strava.com/oauth/token" payload w).2
               = (calls w ++ [HttpPost token_url])%list).
  { intros payload. unfold axios_post, bind, log_call. simpl.
    by destruct (http e). }
  match goal with
  | |- context [axios_post e ?url ?payload w] =>
      specialize (Hpost payload);
      destruct (axios_post e url payload w) as [[data | reason] w1]
  end; simpl in Hpost.
  - match goal with
    | |- context [let (_, _) := ?k w1 in _] =>
        assert (Hrest : exists l, calls (k w1).2 = (calls w1 ++ l)%list)
    end.
    { match goal with
      | |- exists l, calls (?k w1).2 = _ =>
          assert (Hk : makes_calls 1 1 k) by spend;
          destruct (Hk w1) as (l & Hl & _)
      end.
      eauto. }
    destruct Hrest as (l & Hl).
    match goal with
    | |- context [let (_, _) := ?k w1 in _] => destruct (k w1) as [[r | reason] w2]
    end; simpl in *; exists l; by rewrite Hl, Hpost, <- app_assoc.
  - exists []. simpl. exact Hpost.
Qed.

End Exchange.

Section ExchangeAnswers.

Variable createFromRawAddress : string -> bool.
Variable stravaConf : Config.
Variable e : Env.

Let token_url : string := "https://www.strava.com/oauth/token".

(** The callback on a complete exchange answer. *)
Lemma link_complete_eq (request : Request) (w : World) (state : string)
    (fs afs : list (string * jsval))
    (athlete_id access_token refresh_token expires_at : jsval) :
  reaches_exchange createFromRawAddress request = true ->
  query request !! "state" = Some (JStr state) ->
  http e = Some (Some (JObj fs)) ->
  own_property fs "athlete" = Some (JObj afs) ->
  own_property afs "id" = Some athlete_id ->
  own_property fs "access_token" = Some access_token ->
  own_property fs "refresh_token" = Some refresh_token ->
  own_property fs "expires_at" = Some expires_at ->
  exists d : obj,
    document_of
      (link_fields e (Some (JStr state)) (Some athlete_id) (Some access_token)
         (Some refresh_token) (Some expires_at)) = Some d
    /\ link createFromRawAddress stravaConf e request w =
         match faults w with
         | true :: rest =>
             (Ret (mkResponse 500 StatusMessage),
              mkWorld (users w) (rewards w) rest
                (calls w ++ [HttpPost token_url]
                   ++ [DocSet Users (template (Some athlete_id))])%list)
         | schedule =>
             (Ret (mkResponse 200 StatusMessage),
              mkWorld
                (<[template (Some athlete_id) :=
                     merge_document d
                       (default ∅ (users w !! template (Some athlete_id)))]>
                   (users w))
                (rewards w) (tail schedule)
                (calls w ++ [HttpPost token_url]
                   ++ [DocSet Users (template (Some athlete_id))])%list)
         end.
Proof.
  intros Hreach Hstate Hhttp Hath Hid Hat Hrt Hex.
  destruct (document_of_link_fields e (JStr state) athlete_id access_token
              refresh_token expires_at) as (d & Hd & _).
  exists d. split; [exact Hd |].
  rewrite (link_reaches_eq createFromRawAddress stravaConf e request Hreach), Hstate.
  unfold catch at 1. unfold bind at 1. unfold axios_post, bind at 1.
  unfold log_call. rewrite Hhttp.
  unfold ret at 1. cbv beta iota.
  unfold bind, member. rewrite Hath. unfold ret at 1. cbv beta iota.
  rewrite Hid. unfold ret at 1. cbv beta iota.
  rewrite Hat, Hrt, Hex. unfold ret at 1 2 3. cbv beta iota.
  unfold validate_document. rewrite Hd. unfold ret at 1. cbv beta iota.
  unfold catch. rewrite commit_merge_eq. cbn [faults users rewards calls].
  subst token_url. rewrite <- app_assoc.
  destruct (faults w) as [|[|] rest]; reflexivity.
Qed.

(** X14. An exchange that is answered, but without an athlete id, an access
    token, a refresh token or an expiry, makes the link callback answer 400:
    the post to the token endpoint is its only collaborator call, no write
    is sent and the users collection is as it was. *)
Theorem link_incomplete_answer_400 (request : Request) (w : World)
    (data : option jsval) :
  reaches_exchange createFromRawAddress request = true ->
  http e = Some data ->
  ~ complete_answer data ->
  link createFromRawAddress stravaConf e request w =
    (Ret (mkResponse 400 StatusMessage),
     mkWorld (users w) (rewards w) (faults w)
       (calls w ++ [HttpPost token_url])%list).
Proof.
  intros Hreach Hhttp Hincomplete.
  rewrite (link_reaches_eq createFromRawAddress stravaConf e request Hreach).
  unfold catch at 1. unfold bind at 1. unfold axios_post, bind at 1.
  unfold log_call. rewrite Hhttp. unfold ret at 1. cbv beta iota.
  unfold bind, member, validate_document.
  destruct data as [[| | | | |fs]|]; try reflexivity.
  destruct (own_property fs "athlete") as [[| | | | |afs]|] eqn:Hath;
    try reflexivity; unfold ret, throw; cbv beta iota;
    try (rewrite document_of_link_fields_none by auto; reflexivity).
  destruct (document_of
                (link_fields e (query request !! "state") (own_property afs "id")
                   (own_property fs "access_token") (own_property fs "refresh_token")
                   (own_property fs "expires_at"))) as [d|] eqn:Hd;
    [| reflexivity].
  exfalso. apply Hincomplete.
  apply document_of_link_fields_inv in Hd
    as (_ & [athlete_id Hid] & [access_token Hat] & [refresh_token Hrt]
        & [expires_at Hex]).
  exists fs, afs, athlete_id, access_token, refresh_token, expires_at. auto 10.
Qed.

End ExchangeAnswers.

Section FirstReward.

Variable createFromRawAddress : string -> bool.
Variable stravaConf : Config.

(** X15. Linking, then the first activity: when the store answers, a link
    callback with a complete exchange answer for athlete [n] followed by an
    activity-creation event of owner [n], on a day for which the athlete has
    no entry, is answered 200 and then 200 [EVENT_RECEIVED], and the entry
    created carries the address that came as [state] of the callback. *)
Theorem linked_athlete_is_rewarded (e1 e2 : Env) (callback event : Request)
    (w : World) (state : string) (n : Z) (fs afs : list (string * jsval))
    (access_token refresh_token expires_at : jsval) :
  reliable w ->
  reaches_exchange createFromRawAddress callback = true ->
  query callback !! "state" = Some (JStr state) ->
  http e1 = Some (Some (JObj fs)) ->
  own_property fs "athlete" = Some (JObj afs) ->
  own_property afs "id" = Some (JNum n) ->
  own_property fs "access_token" = Some access_token ->
  own_property fs "refresh_token" = Some refresh_token ->
  own_property fs "expires_at" = Some expires_at ->
  activity_created_on (formattedDate e2) (JNum n) (e2, event) ->
  rewards w !! rewardsId (formattedDate e2) (Some (JNum n)) = None ->
  exists (w1 w2 : World) (d : obj),
    link createFromRawAddress stravaConf e1 callback w
      = (Ret (mkResponse 200 StatusMessage), w1)
    /\ webhook stravaConf e2 event w1
       = (Ret (mkResponse 200 (Text "EVENT_RECEIVED")), w2)
    /\ rewards w2 !! rewardsId (formattedDate e2) (Some (JNum n)) = Some d
    /\ d !! "address" = Some (JStr state)
    /\ d !! "athleteId" = Some (JNum n)
    /\ d !! "activityId" = body event !! "object_id".
Proof.
  intros Hrel Hreach Hstate Hhttp Hath Hid Hat Hrt Hex Hevent Hnone.
  destruct (link_complete_eq createFromRawAddress stravaConf e1 callback w state
              fs afs (JNum n) access_token refresh_token expires_at
              Hreach Hstate Hhttp Hath Hid Hat Hrt Hex) as (d0 & Hd0 & Hlink).
  destruct (document_of_link_fields e1 (JStr state) (JNum n) access_token
              refresh_token expires_at) as (d0' & Hd0' & Haddr & Hathlete & _).
  rewrite Hd0 in Hd0'. injection Hd0' as <-.
  set (key := template (Some (JNum n))) in *.
  set (u := merge_document d0 (default ∅ (users w !! key))) in *.
  assert (Hlinked : exists w1,
             link createFromRawAddress stravaConf e1 callback w
               = (Ret (mkResponse 200 StatusMessage), w1)
             /\ users w1 !! key = Some u /\ rewards w1 = rewards w /\ reliable w1).
  { destruct (faults w) as [|[|] rest] eqn:Hf; try kill_fault Hrel Hf;
      eexists; (split; [exact Hlink |]); simpl;
      (split; [apply lookup_insert_eq | split; [reflexivity |]]).
    - by apply Forall_nil.
    - unfold reliable in *. simpl. rewrite Hf in Hrel.
      by apply Forall_cons in Hrel as [_ Hrel]. }
  destruct Hlinked as (w1 & Hlink1 & Hu & Hrewards & Hrel1).
  assert (Hu_addr : u !! "address" = Some (JStr state))
    by (by apply merge_document_lookup_plain).
  assert (Hu_id : u !! "athleteId" = Some (JNum n))
    by (by apply merge_document_lookup_plain).
  destruct (webhook_activity_created stravaConf (formattedDate e2) (JNum n) u
              (e2, event) w1 Hrel1 Hu) as (w2 & _ & _ & Hcases);
    [rewrite Hu_addr; eauto | rewrite Hu_id; eauto | exact Hevent |].
  rewrite Hu_id, Hrewards, Hnone in Hcases.
  destruct Hcases as (Hweb & _ & d & Hd & Hrewards2).
  destruct (document_of_reward_fields_inv _ _ _ _ _ Hd)
    as (H1 & H2 & H3 & _).
  exists w1, w2, d. simpl in Hweb.
  split; [exact Hlink1 |]. split; [exact Hweb |].
  split; [by rewrite Hrewards2, lookup_insert_eq |].
  rewrite H1, H2, H3, Hu_addr. auto.
Qed.


End FirstReward.

(** ** Edges of event ingestion and of the authorization *)

Lemma append_assoc (a b c : string) : (a +:+ b) +:+ c = a +:+ (b +:+ c).
Proof.
  induction a as [|x a IH]; [reflexivity |].
  change (String x ((a +:+ b) +:+ c) = String x (a +:+ (b +:+ c))).
  by rewrite IH.
Qed.

Lemma document_of_reward_fields_none (e : Env)
    (address athleteId activityId : option jsval) :
  address = None \/ athleteId = None ->
  document_of (reward_fields e address athleteId activityId) = None.
Proof.
  intros Hnone.
  destruct (document_of (reward_fields e address athleteId activityId))
    as [d|] eqn:Hd; [| reflexivity].
  apply document_of_reward_fields_inv in Hd
    as (_ & _ & _ & [? ->] & [? ->] & _).
  destruct Hnone; discriminate.
Qed.

Section Edges.

Variable createFromRawAddress : string -> bool.
Variable encodeURIComponent : string -> string.
Variable stravaConf : Config.
Variable e : Env.

(** X17. A user record without [address] or without [athleteId] is never
    rewarded: an activity-creation event of its owner is answered 200
    [EVENT_IGNORED], whatever the store does, and no write is sent: the
    entry would hold an [undefined] field, which the store refuses. *)
Theorem incomplete_user_record_is_not_rewarded (request : Request) (w : World)
    (u : obj) :
  method request = "POST" -> passes_shape_check (body request) ->
  body request !! "object_type" = Some (JStr "activity") ->
  body request !! "aspect_type" = Some (JStr "create") ->
  users w !! template (body request !! "owner_id") = Some u ->
  u !! "address" = None \/ u !! "athleteId" = None ->
  exists w' : World,
    webhook stravaConf e request w
      = (Ret (mkResponse 200 (Text "EVENT_IGNORED")), w')
    /\ users w' = users w /\ rewards w' = rewards w
    /\ writes (calls w') = writes (calls w).
Proof.
  intros Hpost Hshape Hobj Hasp Hu Hmissing.
  rewrite (webhook_post_eq stravaConf e request Hpost Hshape).
  apply strict_eq_str_true in Hobj, Hasp. rewrite Hobj, Hasp. cbn [andb].
  pose proof (document_of_reward_fields_none e (u !! "address") (u !! "athleteId")
                (body request !! "object_id") Hmissing) as Hd.
  unfold catch, webhookEventTry, doc_set_merge, validate_document, bind.
  rewrite doc_get_eq.
  destruct (rewards w !! rewardsId (formattedDate e) (u !! "athleteId"))
    as [r0|] eqn:Hr;
    destruct (faults w) as [|[|] [|[|] fs]] eqn:Hf; simpl; rewrite ?Hu; simpl;
    rewrite ?Hr; simpl; rewrite ?Hd; simpl;
    eexists; (split; [reflexivity |]); simpl;
    (split; [reflexivity | split; [reflexivity | solve_writes]]).
Qed.

(** X18. The state survives the round trip: whenever [authorize] redirects,
    it has called no collaborator, its address parameter is a string that
    parses, the redirect URL ends with [&state=] followed by that very
    string, and a callback that brings this state back with [code] and
    [scope] and without a denial passes the checks of [link]. *)
Theorem authorize_state_round_trip (request : Request) (w w' : World)
    (url : string) :
  authorize createFromRawAddress encodeURIComponent stravaConf request w
    = (Ret (mkResponse 301 (Location url)), w') ->
  w' = w
  /\ exists (address prefix : string),
       query request !! "dhealth.address" = Some (JStr address)
       /\ url = prefix +:+ "&state=" +:+ address
       /\ forall callback : Request,
            query callback !! "state" = Some (JStr address) ->
            query callback !! "error" <> Some (JStr "access_denied") ->
            is_Some (query callback !! "code") ->
            is_Some (query callback !! "scope") ->
            reaches_exchange createFromRawAddress callback = true.
Proof.
  unfold authorize, sendStatus, ret. cbv zeta.
  destruct (negb (has_key "dhealth.address" (query request))); [discriminate |].
  destruct (address_parses createFromRawAddress (query request !! "dhealth.address"))
    eqn:Hparse; [| discriminate].
  cbn [negb]. intros [= <- <-]. split; [reflexivity |].
  destruct (query request !! "dhealth.address") as [[| | |address| |]|];
    try discriminate Hparse.
  exists address,
    ("https://www.strava.com/oauth/authorize?client_id=" +:+ client_id stravaConf
     +:+ "&response_type=code&approval_prompt=auto&scope=activity:read&redirect_uri="
     +:+ encodeURIComponent (oauth_url stravaConf)).
  split; [reflexivity |]. split.
  - cbn [template js_to_string]. rewrite !append_assoc. reflexivity.
  - intros callback Hstate Hden Hcode Hscope. unfold reaches_exchange.
    apply strict_eq_str_false in Hden. apply has_key_true in Hcode, Hscope.
    rewrite Hden, Hcode, Hscope, Hstate. exact Hparse.
Qed.

(** X19. On a users collection keyed by athlete id, as [link] keeps it, the
    entry that an [EVENT_RECEIVED] answer stands for sits under the day of
    the delivery and the [owner_id] of the event. *)
Theorem reward_id_names_the_owner (request : Request) (w w' : World) :
  users_keyed w ->
  webhook stravaConf e request w
    = (Ret (mkResponse 200 (Text "EVENT_RECEIVED")), w') ->
  let id := formattedDate e +:+ "-" +:+ template (body request !! "owner_id") in
  rewards w !! id = None /\ is_Some (rewards w' !! id).
Proof.
  intros Hkeyed Hweb id.
  destruct (webhook_cases stravaConf e request w) as [(_ & _ & Hno) | (_ & _ & Hout)];
    rewrite Hweb in *; simpl in *; [congruence |].
  inversion Hout as [| | | u d w0 Hu Hr Hd Husers Hrewards _ _]; subst.
  assert (Hid : rewardsId (formattedDate e) (u !! "athleteId") = id).
  { unfold rewardsId. subst id. by rewrite <- (Hkeyed _ _ Hu). }
  rewrite Hid in *. split; [exact Hr |].
  rewrite Hrewards, lookup_insert_eq. eauto.
Qed.

End Edges.


(** ** How the collections grow *)

Section Growth.

Variable createFromRawAddress : string -> bool.
Variable encodeURIComponent : string -> string.
Variable stravaConf : Config.

Lemma invoke_growth (i : Invocation) (w : World) :
  let w' := (invoke createFromRawAddress encodeURIComponent stravaConf i w).2 in
  (size (users w') <= size (users w) + invocations_of Link [i])%nat
  /\ (size (rewards w') <= size (rewards w) + invocations_of Webhook [i])%nat.
Proof.
  cbv zeta. unfold invocations_of. simpl.
  destruct (decide (target i = Link)) as [Hlink | Hlink];
    [| destruct (decide (target i = Webhook)) as [Hweb | Hweb]].
  - rewrite (bool_decide_eq_true_2 _ Hlink).
    rewrite bool_decide_eq_false_2 by congruence. simpl.
    rewrite (keeps_invoke_but_webhook createFromRawAddress encodeURIComponent
               stravaConf i ltac:(congruence) w).
    split; [| lia].
    unfold invoke. rewrite Hlink. unfold bind.
    pose proof (link_outcome_holds createFromRawAddress stravaConf (environment i)
                  (request_of i) w) as Hout.
    destruct (link createFromRawAddress stravaConf (environment i) (request_of i) w)
      as [[r | reason] w1]; simpl in *; [| inversion Hout].
    inversion Hout as [code w0 Hu _ _ _ | state aid at_ rt ex d0 w0 _ _ Hu _ _];
      subst; rewrite Hu; [lia |].
    destruct (users w !! template (Some aid)) eqn:Hold.
    + rewrite map_size_insert_Some by eauto. lia.
    + rewrite map_size_insert_None by done. lia.
  - rewrite (bool_decide_eq_true_2 _ Hweb).
    rewrite bool_decide_eq_false_2 by congruence. simpl.
    assert (Husers : users (invoke createFromRawAddress encodeURIComponent
                              stravaConf i w).2 = users w).
    { apply (steps_invoke_but_link (fun w w' => users w' = users w)); try done.
      - intros w1 w2 w3 H12 H23. congruence.
      - intros id0 d0 w0. rewrite commit_merge_eq.
        by destruct (faults w0) as [|[|] fs]. }
    rewrite Husers. split; [lia |].
    unfold invoke. rewrite Hweb. unfold bind.
    pose proof (webhook_cases stravaConf (environment i) (request_of i) w) as Hcases.
    destruct (webhook stravaConf (environment i) (request_of i) w)
      as [[r | reason] w1]; simpl in *.
    + destruct Hcases as [(_ & Hr & _) | (_ & Heq & Hout)]; [rewrite Hr; lia |].
      injection Heq as ->.
      inversion Hout as [| | | u d0 w0 Hu Hr Hd _ Hrewards _ _]; subst.
      rewrite Hrewards, map_size_insert_None by done. lia.
    + destruct Hcases as [(_ & Hr & _) | (_ & Heq & _)]; [rewrite Hr; lia |].
      discriminate.
  - rewrite !bool_decide_eq_false_2 by congruence. simpl.
    rewrite (keeps_invoke_but_webhook createFromRawAddress encodeURIComponent
               stravaConf i Hweb w).
    assert (Husers : users (invoke createFromRawAddress encodeURIComponent
                              stravaConf i w).2 = users w).
    { apply (steps_invoke_but_link (fun w w' => users w' = users w)); try done.
      - intros w1 w2 w3 H12 H23. congruence.
      - intros id0 d0 w0. rewrite commit_merge_eq.
        by destruct (faults w0) as [|[|] fs]. }
    rewrite Husers. lia.
Qed.

(** X20. The collections grow one document at a time: after any sequence of
    invocations the users collection has at most one record more for each
    link callback in the sequence, and the rewards collection at most one
    entry more for each webhook call. *)
Theorem collections_grow_one_by_one (invocations : list Invocation) (w : World) :
  let w' := run createFromRawAddress encodeURIComponent stravaConf invocations w in
  (size (users w') <= size (users w) + invocations_of Link invocations)%nat
  /\ (size (rewards w') <= size (rewards w) + invocations_of Webhook invocations)%nat.
Proof.
  cbv zeta. revert w.
  induction invocations as [|i rest IH]; intros w; simpl; [lia |].
  destruct (invoke_growth i w) as [Hu Hr].
  destruct (IH (invoke createFromRawAddress encodeURIComponent stravaConf i w).2)
    as [Hu' Hr'].
  unfold invocations_of in *. simpl in *.
  destruct (bool_decide (target i = Link)), (bool_decide (target i = Webhook));
    simpl in *; lia.
Qed.

End Growth.

(** * The further properties at sample inputs *)

Lemma collections_have_one_writer_witness :
  users (run sample_parser (fun s => s) sample_conf
           [status_call; event_call 1001; sweep] linked_world)
    = users linked_world.
Proof.
  destruct (collections_have_one_writer sample_parser (fun s => s) sample_conf
              [status_call; event_call 1001; sweep] linked_world) as [Husers _].
  apply Husers. repeat constructor; discriminate.
Defined.

Lemma every_request_is_answered_witness :
  (exists (r : Response) (w' : World),
     invoke sample_parser (fun s => s) sample_conf link_call empty_world
       = (Ret (Some r), w')
     /\ statusCode r ∈ codes_of Link)
  /\ (exists reason : string,
        webhook_raw sample_conf sample_env "POST" ∅ (TextBody "not json")
          linked_world = (Throw reason, linked_world)).
Proof.
  split.
  - apply (every_request_is_answered sample_parser (fun s => s) sample_conf
             link_call empty_world).
    discriminate.
  - destruct (every_request_is_answered sample_parser (fun s => s) sample_conf
                link_call linked_world) as (_ & Hthrows & _); [discriminate |].
    apply Hthrows.
Defined.

Lemma webhook_is_quiet_unless_activity_creation_witness :
  is_activity_creation verification_request = false
  /\ exists r : Response,
       webhook sample_conf sample_env verification_request linked_world
         = (Ret r, linked_world)
       /\ statusCode r ∈ codes_of Webhook.
Proof.
  split; [reflexivity |].
  destruct (webhook_is_quiet_unless_activity_creation sample_conf sample_env
              verification_request linked_world eq_refl)
    as [(r & Hr & Hcode & _) _].
  exists r. split; [exact Hr | exact Hcode].
Defined.

(** The sweep on a store with one unprocessed entry: the query returns it. *)
Lemma payout_only_reads_witness :
  exists (docs : list (string * obj)) (w' : World),
    query_get (mkQuery Rewards "isProcessed" (JBool false)) rewarded_world
      = (Ret (QuerySnapshot docs), w')
    /\ ("20211103-42", sample_reward) ∈ docs
    /\ (payout rewarded_world).1 = Ret tt.
Proof.
  destruct (payout_only_reads rewarded_world) as (_ & Hquery & _ & _ & _ & Hret & _).
  destruct Hquery as (docs & w' & Heq & Hdocs); [discriminate |].
  exists docs, w'. split; [exact Heq |].
  split; [apply Hdocs; split; reflexivity | apply Hret; discriminate].
Defined.

Lemma status_500_iff_query_fails_witness :
  exists (r : Response) (w' : World),
    status sample_parser status_request
      (mkWorld {[ "42" := sample_user ]} ∅ [true] [])
      = (Ret r, w')
    /\ statusCode r = 500.
Proof.
  destruct (status_500_iff_query_fails sample_parser status_request
              (mkWorld {[ "42" := sample_user ]} ∅ [true] []) eq_refl eq_refl)
    as (r & w' & Heq & [_ Hfails] & _).
  exists r, w'. split; [exact Heq | apply Hfails; reflexivity].
Defined.

Lemma link_200_iff_record_written_witness :
  exists record : obj,
    users (link sample_parser sample_conf sample_env link_request
             earlier_linked_world).2 !! "42" = Some record
    /\ record !! "address" = Some (JStr sample_address)
    /\ record !! "accessToken" = Some (JStr "t")
    /\ record !! "refreshToken" = Some (JStr "r")
    /\ record !! "accessExpiresAt" = Some (JNum 123).
Proof.
  pose (t := link sample_parser sample_conf sample_env link_request
               earlier_linked_world).
  assert (Ht : t = (Ret (mkResponse 200 StatusMessage), t.2))
    by (vm_compute; reflexivity).
  destruct (link_200_iff_record_written sample_parser sample_conf sample_env
              link_request earlier_linked_world _ _ Ht) as (_ & _ & Hwritten).
  destruct (Hwritten eq_refl)
    as (state & fs & afs & aid & at_ & rt & ex & record & Hstate & Hhttp & Hath
        & Hid & Hat & Hrt & Hex & Hu & _ & Haddress & _ & _ & [_ Hw1] & [_ Hw2]
        & [_ Hw3] & _).
  injection Hstate as <-. injection Hhttp as <-.
  injection Hath as <-. injection Hid as <-.
  injection Hat as <-. injection Hrt as <-. injection Hex as <-.
  exists record. fold t. rewrite Hu.
  split; [apply lookup_insert_eq |].
  split; [exact Haddress |].
  split; [apply Hw1; discriminate |].
  split; [apply Hw2; discriminate | apply Hw3; discriminate].
Defined.

Lemma link_keeps_other_fields_witness :
  exists d' : obj,
    users (link sample_parser sample_conf sample_env link_request
             (mkWorld {[ "42" := <["nickname" := JStr "ada"]> sample_user ]} ∅ [] [])).2
      !! "42" = Some d'
    /\ d' !! "nickname" = Some (JStr "ada").
Proof.
  destruct (link_keeps_other_fields sample_parser sample_conf sample_env link_request
              (mkWorld {[ "42" := <["nickname" := JStr "ada"]> sample_user ]} ∅ [] [])
              "42" "nickname" (<["nickname" := JStr "ada"]> sample_user))
    as (d' & Hd' & Hkept).
  - reflexivity.
  - intros Hin. unfold link_field_names in Hin.
    repeat (apply elem_of_cons in Hin as [Hin | Hin]; [discriminate |]).
    by apply elem_of_nil in Hin.
  - exists d'. split; [exact Hd' |]. rewrite Hkept. apply lookup_insert_eq.
Defined.

Lemma event_received_means_entry_created_witness :
  exists (u d : obj),
    users linked_world !! template (body (activity_event 1001) !! "owner_id") = Some u
    /\ rewards linked_world !! rewardsId "20211103" (u !! "athleteId") = None
    /\ d !! "address" = u !! "address"
    /\ d !! "activityId" = Some (JNum 1001).
Proof.
  pose (t := webhook sample_conf sample_env (activity_event 1001) linked_world).
  assert (Ht : t = (Ret (mkResponse 200 (Text "EVENT_RECEIVED")), t.2))
    by (vm_compute; reflexivity).
  destruct (event_received_means_entry_created sample_conf sample_env
              (activity_event 1001) linked_world _ Ht)
    as (_ & _ & u & d & Hu & Hnone & _ & Haddress & _ & Hactivity & _).
  exists u, d. auto.
Defined.

Lemma rewards_stay_keyed_witness :
  rewards_keyed
    (run sample_parser (fun s => s) sample_conf [event_call 1002; sweep; link_call]
       rewarded_world).
Proof.
  apply (rewards_stay_keyed sample_parser (fun s => s) sample_conf
           [event_call 1002; sweep; link_call] rewarded_world).
  intros id d Hid. unfold rewarded_world in Hid. cbn [rewards] in Hid.
  apply lookup_singleton_Some in Hid as [<- <-].
  exists "20211103". split; reflexivity.
Defined.

Lemma users_stay_keyed_witness :
  users_keyed
    (run sample_parser (fun s => s) sample_conf [link_call; event_call 1001]
       empty_world).
Proof.
  apply (users_stay_keyed sample_parser (fun s => s) sample_conf
           [link_call; event_call 1001] empty_world).
  intros id d Hid. discriminate Hid.
Defined.

Lemma link_posts_iff_request_is_valid_witness :
  exists l : list Call,
    calls (link sample_parser sample_conf sample_env link_request empty_world).2
      = HttpPost "https://www.strava.com/oauth/token" :: l.
Proof.
  destruct (link_posts_iff_request_is_valid sample_parser sample_conf sample_env
              link_request empty_world) as [Hposts _].
  apply Hposts. reflexivity.
Defined.

Lemma link_incomplete_answer_400_witness :
  link sample_parser sample_conf incomplete_answer_env link_request linked_world
    = (Ret (mkResponse 400 StatusMessage),
       mkWorld (users linked_world) (rewards linked_world) (faults linked_world)
         [HttpPost "https://www.strava.com/oauth/token"]).
Proof.
  apply (link_incomplete_answer_400 sample_parser sample_conf incomplete_answer_env
           link_request linked_world (Some (JObj [("access_token", JStr "t")]))).
  - reflexivity.
  - reflexivity.
  - intros (fs & afs & a & b & c & d & Hdata & Hathlete & _).
    injection Hdata as <-. discriminate Hathlete.
Defined.

Lemma sample_deliveries (e : Env) (activity : Z) :
  activity_created_on (formattedDate e) (JNum 42) (e, activity_event activity).
Proof. repeat split; try reflexivity; eexists; reflexivity. Defined.

Lemma linked_athlete_is_rewarded_witness :
  exists (w1 w2 : World) (d : obj),
    link sample_parser sample_conf sample_env link_request empty_world
      = (Ret (mkResponse 200 StatusMessage), w1)
    /\ webhook sample_conf next_day_env (activity_event 1001) w1
       = (Ret (mkResponse 200 (Text "EVENT_RECEIVED")), w2)
    /\ rewards w2 !! "20211104-42" = Some d
    /\ d !! "address" = Some (JStr sample_address).
Proof.
  destruct (linked_athlete_is_rewarded sample_parser sample_conf sample_env
              next_day_env link_request (activity_event 1001) empty_world
              sample_address 42
              [ ("athlete", JObj [("id", JNum 42)]); ("access_token", JStr "t");
                ("refresh_token", JStr "r"); ("expires_at", JNum 123) ]
              [("id", JNum 42)] (JStr "t") (JStr "r") (JNum 123))
    as (w1 & w2 & d & Hlink & Hweb & Hd & Haddress & _);
    try reflexivity.
  - by apply Forall_nil.
  - apply sample_deliveries.
  - exists w1, w2, d. auto.
Defined.


Lemma incomplete_user_record_is_not_rewarded_witness :
  exists w' : World,
    webhook sample_conf sample_env (activity_event 1001) incomplete_user_world
      = (Ret (mkResponse 200 (Text "EVENT_IGNORED")), w')
    /\ users w' = users incomplete_user_world
    /\ rewards w' = rewards incomplete_user_world
    /\ writes (calls w') = writes (calls incomplete_user_world).
Proof.
  apply (incomplete_user_record_is_not_rewarded sample_conf sample_env
           (activity_event 1001) incomplete_user_world {[ "athleteId" := JNum 42 ]});
    try reflexivity.
  - apply activity_event_shape.
  - left. reflexivity.
Defined.

Lemma authorize_state_round_trip_witness :
  exists (address prefix : string),
    query status_request !! "dhealth.address" = Some (JStr address)
    /\ reaches_exchange sample_parser link_request = true.
Proof.
  assert (Hredirect : exists url,
             authorize sample_parser (fun s => s) sample_conf status_request
               empty_world
               = (Ret (mkResponse 301 (Location url)), empty_world))
    by (eexists; reflexivity).
  destruct Hredirect as [url Hredirect].
  destruct (authorize_state_round_trip sample_parser (fun s => s) sample_conf
              status_request empty_world empty_world url Hredirect)
    as (_ & address & prefix & Haddress & _ & Hcallback).
  exists address, prefix. split; [exact Haddress |].
  apply Hcallback.
  - change (query status_request !! "dhealth.address")
      with (Some (JStr sample_address)) in Haddress.
    injection Haddress as <-. reflexivity.
  - discriminate.
  - eexists; reflexivity.
  - eexists; reflexivity.
Defined.

Lemma reward_id_names_the_owner_witness :
  rewards linked_world !! "20211103-42" = None
  /\ is_Some
       (rewards (webhook sample_conf sample_env (activity_event 1001) linked_world).2
          !! "20211103-42").
Proof.
  pose (t := webhook sample_conf sample_env (activity_event 1001) linked_world).
  assert (Ht : t = (Ret (mkResponse 200 (Text "EVENT_RECEIVED")), t.2))
    by (vm_compute; reflexivity).
  apply (reward_id_names_the_owner sample_conf sample_env (activity_event 1001)
           linked_world t.2); [| exact Ht].
  intros id d Hid. unfold linked_world in Hid. cbn [users] in Hid.
  apply lookup_singleton_Some in Hid as [<- <-]. reflexivity.
Defined.
